(** * Crawl and ingestion durability: a shallow embedding

    The development follows three scripts of the repository:
    - [scraper_crawl.py]: the breadth-first crawler;
    - [store_to_db.py]: the primary ingestion run and its fallback log;
    - [import_fallback.py]: the later reconciliation run over that log.

    Python values are modelled as the code uses them: [str] as the [string]
    of its UTF-8 bytes, [set] as [gset string], [dict] documents as
    [gmap string Value], the [deque] as a list. What the scripts obtain from libraries and from the
    network (HTTP responses, the HTML parser, [urllib.parse], the MongoDB
    servers) is an explicit environment record, so every statement holds for
    any web and any server behaviour. *)

From Stdlib Require Import ZArith Ascii String List Lia.
From Stdlib Require QArith.
From stdpp Require Import base gmap sets list strings.

Local Open Scope string_scope.
Local Open Scope list_scope.

(** ** Python string methods used by the scripts *)

Module py.

(** [s.rstrip(chars)] with the character class given as a predicate. *)
Fixpoint rstrip_by (p : ascii -> bool) (s : string) : string :=
    match s with
    | EmptyString => EmptyString
    | String c r =>
        match rstrip_by p r with
        | EmptyString => if p c then EmptyString else String c EmptyString
        | r' => String c r'
        end
    end.

Fixpoint lstrip_by (p : ascii -> bool) (s : string) : string :=
    match s with
    | EmptyString => EmptyString
    | String c r => if p c then lstrip_by p r else s
    end.

(** [s[n:]] *)
Fixpoint skip (n : nat) (s : string) : string :=
  match n, s with
  | O, _ => s
  | S n', String _ r => skip n' r
  | S _, EmptyString => EmptyString
  end.

(** The width in bytes of the white-space character ([str.isspace]) the
    string starts with, and 0 when it starts with none. Python's white
    space is U+0009..U+000D, U+001C..U+0020, U+0085, U+00A0, U+1680,
    U+2000..U+200A, U+2028, U+2029, U+202F, U+205F and U+3000. *)
Definition space_width (s : string) : nat :=
  match s with
  | EmptyString => 0
  | String c1 r1 =>
      let n1 := nat_of_ascii c1 in
      if ((9 <=? n1) && (n1 <=? 13)) || ((28 <=? n1) && (n1 <=? 32)) then 1
      else
        match r1 with
        | EmptyString => 0
        | String c2 r2 =>
            let n2 := nat_of_ascii c2 in
            if (n1 =? 194) && ((n2 =? 133) || (n2 =? 160)) then 2
            else
              match r2 with
              | EmptyString => 0
              | String c3 _ =>
                  let n3 := nat_of_ascii c3 in
                  if ((n1 =? 225) && (n2 =? 154) && (n3 =? 128))
                     || ((n1 =? 226) && (n2 =? 128)
                         && (((128 <=? n3) && (n3 <=? 138))
                             || (n3 =? 168) || (n3 =? 169) || (n3 =? 175)))
                     || ((n1 =? 226) && (n2 =? 129) && (n3 =? 159))
                     || ((n1 =? 227) && (n2 =? 128) && (n3 =? 128))
                  then 3 else 0
              end
        end
  end%nat.

Fixpoint lstrip_fuel (fuel : nat) (s : string) : string :=
  match fuel with
  | O => s
  | S n =>
      match space_width s with
      | O => s
      | w => lstrip_fuel n (skip w s)
      end
  end.

(** [s.lstrip()] *)
Definition lstrip (s : string) : string := lstrip_fuel (String.length s) s.

(** [s.rstrip()]: a suffix is dropped from the point where all that
    follows is white space. *)
Fixpoint rstrip (s : string) : string :=
  match s with
  | EmptyString => EmptyString
  | String c r =>
      match lstrip s with
      | EmptyString => EmptyString
      | _ => String c (rstrip r)
      end
  end.

(** [s.strip()] *)
Definition strip (s : string) : string := lstrip (rstrip s).

(** The width in bytes of the line boundary ([str.splitlines]) the string
    starts with, and 0 when it starts with none: LF, CR, CR LF, VT, FF, FS,
    GS, RS, U+0085, U+2028 and U+2029. *)
Definition break_width (s : string) : nat :=
  match s with
  | EmptyString => 0
  | String c1 r1 =>
      let n1 := nat_of_ascii c1 in
      if (n1 =? 13) then
        match r1 with
        | String c2 _ => if nat_of_ascii c2 =? 10 then 2 else 1
        | EmptyString => 1
        end
      else if (n1 =? 10) || (n1 =? 11) || (n1 =? 12)
              || (n1 =? 28) || (n1 =? 29) || (n1 =? 30) then 1
      else
        match r1 with
        | EmptyString => 0
        | String c2 r2 =>
            let n2 := nat_of_ascii c2 in
            if (n1 =? 194) && (n2 =? 133) then 2
            else
              match r2 with
              | EmptyString => 0
              | String c3 _ =>
                  let n3 := nat_of_ascii c3 in
                  if (n1 =? 226) && (n2 =? 128) && ((n3 =? 168) || (n3 =? 169))
                  then 3 else 0
              end
        end
  end%nat.

Fixpoint splitlines_fuel (fuel : nat) (cur s : string) : list string :=
  match fuel with
  | O => []
  | S n =>
      match s with
      | EmptyString => match cur with EmptyString => [] | _ => [cur] end
      | String c r =>
          match break_width s with
          | O => splitlines_fuel n (cur +:+ String c EmptyString) r
          | w => cur :: splitlines_fuel n EmptyString (skip w s)
          end
      end
  end.

(** Whether no line boundary starts anywhere in the string. *)
Fixpoint no_break (s : string) : bool :=
  match s with
  | EmptyString => true
  | String _ r => (break_width s =? 0)%nat && no_break r
  end.

(** [s.splitlines()] *)
Definition splitlines (s : string) : list string :=
  splitlines_fuel (S (String.length s)) EmptyString s.

(** ["\n"] *)
Definition newline : string := String "010"%char EmptyString.

(** The text a loop of [out.write(line + "\n")] leaves in a file. *)
Fixpoint write_lines (lines : list string) : string :=
  match lines with
  | [] => EmptyString
  | l :: t => l +:+ newline +:+ write_lines t
  end.

(** [len(s)]: the number of characters, that is of bytes that do not
    continue a UTF-8 sequence. *)
Fixpoint len (s : string) : nat :=
  match s with
  | EmptyString => 0
  | String c r =>
      let n := nat_of_ascii c in
      if ((n <? 128) || (192 <=? n))%nat then S (len r) else len r
  end.

(** [s.rstrip("/")] *)
Definition rstrip_slash (s : string) : string :=
    rstrip_by (fun c => Ascii.eqb c "/") s.

(** [s.split("#")[0]]: everything before the first ['#']. *)
Fixpoint before_hash (s : string) : string :=
    match s with
    | EmptyString => EmptyString
    | String c r => if Ascii.eqb c "#" then EmptyString else String c (before_hash r)
    end.

(** ['#' in s] *)
Fixpoint has_hash (s : string) : bool :=
    match s with
    | EmptyString => false
    | String c r => Ascii.eqb c "#" || has_hash r
    end.

(** [s.endswith("/")] *)
Fixpoint ends_with_slash (s : string) : bool :=
    match s with
    | EmptyString => false
    | String c EmptyString => Ascii.eqb c "/"
    | String _ r => ends_with_slash r
    end.

Definition lower_char (c : ascii) : ascii :=
    let n := nat_of_ascii c in
    if ((65 <=? n)%nat && (n <=? 90)%nat) then ascii_of_nat (n + 32) else c.

(** [s.lower()] on ASCII letters (the only ones the path patterns use). *)
Fixpoint lower (s : string) : string :=
    match s with
    | EmptyString => EmptyString
    | String c r => String (lower_char c) (lower r)
    end.

(** [s.startswith(p)] *)
Fixpoint startswith (p s : string) : bool :=
    match p, s with
    | EmptyString, _ => true
    | String a p', String b s' => Ascii.eqb a b && startswith p' s'
    | String _ _, EmptyString => false
    end.

(** [p in s] *)
Fixpoint contains (p s : string) : bool :=
    startswith p s ||
    match s with
    | EmptyString => false
    | String _ s' => contains p s'
    end.

(** [sep.join(l)] *)
Fixpoint join (sep : string) (l : list string) : string :=
    match l with
    | [] => EmptyString
    | [x] => x
    | x :: t => x +:+ sep +:+ join sep t
    end.

(** Truthiness of a [str]. *)
Definition truthy (s : string) : bool :=
    match s with EmptyString => false | _ => true end.

End py.

(** ** scraper_crawl.py *)

Module scraper_crawl.

(** What [BeautifulSoup(html, "html.parser")] answers to the queries the
      script makes. A selector that matches nothing is [None]; the text of a
      matched element is what [get_text(" ", strip=True)] returns. *)
Record Page := {
    sel_h1 : option string;                (* soup.select_one("h1") *)
    soup_title : option (option string);   (* soup.title, then its .string *)
    sel_meta_description : option (option string);
                                           (* meta[name='description'], then .get("content") *)
    sel_author_a : option string;          (* soup.select_one(".author a") *)
    sel_byline : option string;            (* soup.select_one(".byline") *)
    sel_time : option string;              (* soup.select_one("time") *)
    sel_tags_a : list string;              (* soup.select(".tags a") *)
    soup_text : string;                    (* soup.get_text(" ", strip=True) *)
    a_hrefs : list string                  (* a.get("href") for soup.find_all("a", href=True) *)
  }.

(** The network and the libraries. [None] stands for a raised exception
      unless said otherwise. *)
Record Web := {
    (* requests.get + raise_for_status: the body of a 2xx answer *)
    http_body : string -> option string;
    (* driver.page_source after the headless render *)
    selenium_page_source : string -> option string;
    BeautifulSoup : string -> Page;
    (* urllib.parse.urljoin past its two early returns; ValueError is None *)
    urljoin_rest : string -> string -> option string;
    (* urllib.parse.urlparse(u).netloc; ValueError is None *)
    urlparse_netloc : string -> option string;
    (* whether the platform accepts so long a delay in time.sleep:
       above its limit the call raises OverflowError or OSError *)
    sleep_accepts : QArith_base.Q -> bool
  }.

(** A Python [float] as far as [time.sleep] tells values apart: a finite
    number, or one of [nan], [inf] and [-inf]. *)
Inductive Float :=
| Finite (x : QArith_base.Q)
| NotFinite.

Record Config := {
    START_URL : string;
    MAX_RECORDS : Z;
    DELAY : Float;
    MAX_PAGES_TO_VISIT : Z
  }.

(** [time.sleep(DELAY)] returns for a finite, non-negative delay that the
    platform accepts; it raises ValueError for a negative delay and for
    [nan], and OverflowError for the infinities. *)
Definition sleep_returns (W : Web) (C : Config) : bool :=
  match DELAY C with
  | Finite x =>
      QArith_base.Qle_bool (QArith_base.Qmake 0 1) x && sleep_accepts W x
  | NotFinite => false
  end.

(** A row of the output CSV, the dict [parse_article] returns. *)
Record Row := {
    title : string;
    url : string;
    date : string;
    author : string;
    category : string;
    excerpt : string;
    content_length : nat;
    tags : string;
    notes : string
  }.

(** The output file: its data rows, and whether pandas can read it and
      finds a [url] column. *)
Record CsvFile := {
    csv_readable : bool;
    csv_rows : list Row
  }.

Section WithWeb.
Context (W : Web).

(** [requests_get(url)]: the response, or None on any exception. *)
Definition requests_get (u : string) : option string := http_body W u.

(** [fetch_with_selenium(url)]: the rendered source; raises on failure. *)
Definition fetch_with_selenium (u : string) : option string :=
      selenium_page_source W u.

(** [urljoin(base, url)]: CPython returns [url] for an empty base and
        [base] for an empty url before it parses anything. *)
Definition urljoin (base u : string) : option string :=
      if negb (py.truthy base) then Some u
      else if negb (py.truthy u) then Some base
      else urljoin_rest W base u.

(** [is_internal(url, base_netloc)] *)
Definition is_internal (u base_netloc : string) : bool :=
      match urlparse_netloc W u with
      | Some n => bool_decide (n = "") || bool_decide (n = base_netloc)
      | None => false
      end.

(** [normalize_url(href, base)]: outer [None] is an exception of
        [urljoin], [Some None] is the Python [None]. *)
Definition normalize_url (href base : string) : option (option string) :=
      if negb (py.truthy href) then Some None
      else match urljoin base (py.before_hash href) with
           | Some u => Some (Some (py.rstrip_slash u))
           | None => None
           end.

(** The loop of [extract_links] over the anchors of the page. *)
Fixpoint extract_links_of (hrefs : list string) (base : string)
      : option (list string) :=
      match hrefs with
      | [] => Some []
      | h :: t =>
          match normalize_url (py.strip h) base with
          | None => None
          | Some full =>
              match extract_links_of t base with
              | None => None
              | Some links =>
                  Some (match full with
                        | Some u => if py.truthy u then u :: links else links
                        | None => links
                        end)
              end
          end
      end.

Definition extract_links (html base : string) : option (list string) :=
      extract_links_of (a_hrefs (BeautifulSoup W html)) base.

(** [parse_article(html, url)]; [None] when [soup.title.string] is None
        and [.strip()] raises AttributeError. *)
Definition parse_article (html u : string) : option Row :=
      let soup := BeautifulSoup W html in
      let title_ :=
        match sel_h1 soup with
        | Some t => Some t
        | None =>
            match soup_title soup with
            | Some (Some s) => Some (py.strip s)
            | Some None => None
            | None => Some ""
            end
        end in
      let excerpt_ :=
        match sel_meta_description soup with
        | Some (Some c) => if py.truthy c then py.strip c else ""
        | _ => ""
        end in
      let author_ :=
        match sel_author_a soup with
        | Some a => a
        | None => match sel_byline soup with Some a => a | None => "" end
        end in
      let date_ := match sel_time soup with Some t => t | None => "" end in
      let tags_ :=
        match sel_tags_a soup with
        | [] => ""
        | l => py.join ", " l
        end in
      match title_ with
      | None => None
      | Some t =>
          Some {| title := t; url := u; date := date_; author := author_;
                  category := "History"; excerpt := excerpt_;
                  content_length := py.len (soup_text soup);
                  tags := tags_; notes := "" |}
      end.

End WithWeb.

(** [append_csv(rows, path)]: open in append mode, header on creation. *)
Definition append_csv (rows : list Row) (disk : option CsvFile) : option CsvFile :=
    match disk with
    | None => Some {| csv_readable := true; csv_rows := rows |}
    | Some f => Some {| csv_readable := csv_readable f; csv_rows := csv_rows f ++ rows |}
    end.

(** The state of [main]: its local variables, the output file, and a ghost
      log of the URLs handed to the fetch tier, oldest first. *)
Record State := {
    q : list string;
    visited : gset string;
    articles : gset string;
    pages_visited : nat;
    scraped_rows : list Row;
    disk : option CsvFile;
    fetch_log : list string
  }.

(** An iteration either falls through to the loop test or lets an
      exception escape [main]. *)
Inductive Outcome :=
  | Next (s : State)
  | Raised (s : State).

Definition state_of (o : Outcome) : State :=
    match o with Next s | Raised s => s end.

(** The article-path heuristic. *)
Definition looks_like_article (u : string) : bool :=
    let lower := py.lower u in
    py.contains "/article" lower || py.contains "/articles" lower
    || py.contains "/article-" lower.

Section Loop.
Context (W : Web) (C : Config).

(** The loop test of [main]. *)
Definition loop_cond (s : State) : bool :=
      match q s with [] => false | _ => true end
      && (Z.of_nat (size (articles s)) <? MAX_RECORDS C)%Z
      && (Z.of_nat (pages_visited s) <? MAX_PAGES_TO_VISIT C)%Z.

(** The tiered fetch: [None] is the [continue] after a failed Selenium
        fallback. *)
Definition fetch (u : string) : option string :=
      match requests_get W u with
      | Some text => Some text
      | None => fetch_with_selenium W u
      end.

(** The link loop: internal links are stripped and queued unless
        already visited. *)
Fixpoint enqueue_links (base_netloc : string) (links : list string)
        (vis : gset string) (queue : list string) : list string :=
      match links with
      | [] => queue
      | link :: t =>
          if negb (is_internal W link base_netloc) then
            enqueue_links base_netloc t vis queue
          else
            let normalized := py.rstrip_slash link in
            if bool_decide (normalized ∈ vis) then
              enqueue_links base_netloc t vis queue
            else enqueue_links base_netloc t vis (queue ++ [normalized])
      end.

(** The article branch: returns the new batch and article set. *)
Definition collect (html u : string) (rows : list Row) (arts : gset string)
      : list Row * gset string :=
      if looks_like_article u then
        let norm := py.rstrip_slash u in
        if bool_decide (norm ∈ arts) then (rows, arts)
        else match parse_article W html u with
             | Some row => (rows ++ [row], {[norm]} ∪ arts)
             | None => (rows, arts)
             end
      else (rows, arts).

(** The periodic save: every 10 collected rows. *)
Definition periodic_flush (rows : list Row) (d : option CsvFile)
      : list Row * option CsvFile :=
      if (10 <=? length rows)%nat then ([], append_csv rows d) else (rows, d).

(** One iteration of the [while] loop. *)
Definition body (base_netloc : string) (s : State) : Outcome :=
      match q s with
      | [] => Raised s
      | u :: rest =>
          if bool_decide (u ∈ visited s) then
            Next {| q := rest; visited := visited s; articles := articles s;
                    pages_visited := pages_visited s;
                    scraped_rows := scraped_rows s; disk := disk s;
                    fetch_log := fetch_log s |}
          else
            let vis := {[u]} ∪ visited s in
            let s1 := {| q := rest; visited := vis; articles := articles s;
                         pages_visited := S (pages_visited s);
                         scraped_rows := scraped_rows s; disk := disk s;
                         fetch_log := fetch_log s ++ [u] |} in
            match fetch u with
            | None => Next s1
            | Some html =>
                if negb (py.truthy html) then Next s1
                else
                  match extract_links W html u with
                  | None => Raised s1
                  | Some links =>
                      let queue := enqueue_links base_netloc links vis rest in
                      let '(rows, arts) :=
                        collect html u (scraped_rows s) (articles s) in
                      if negb (sleep_returns W C) then
                        Raised {| q := queue; visited := vis; articles := arts;
                                  pages_visited := S (pages_visited s);
                                  scraped_rows := rows; disk := disk s;
                                  fetch_log := fetch_log s ++ [u] |}
                      else
                      let '(rows', d) := periodic_flush rows (disk s) in
                      Next {| q := queue; visited := vis; articles := arts;
                              pages_visited := S (pages_visited s);
                              scraped_rows := rows'; disk := d;
                              fetch_log := fetch_log s ++ [u] |}
                  end
            end
      end.

(** The [while] loop, with an iteration budget. *)
Fixpoint loop (base_netloc : string) (fuel : nat) (s : State) : option Outcome :=
      if loop_cond s then
        match fuel with
        | O => None
        | S n =>
            match body base_netloc s with
            | Next s' => loop base_netloc n s'
            | Raised s' => Some (Raised s')
            end
        end
      else Some (Next s).

(** The URLs seeded from the output of a prior run. *)
Definition load_existing (d : option CsvFile) : gset string :=
      match d with
      | Some f =>
          if csv_readable f
          then list_to_set (map (fun r => py.rstrip_slash (url r)) (csv_rows f))
          else ∅
      | None => ∅
      end.

Definition init (d : option CsvFile) : State :=
      {| q := [START_URL C]; visited := ∅; articles := load_existing d;
         pages_visited := 0; scraped_rows := []; disk := d; fetch_log := [] |}.

(** The final flush. *)
Definition final_flush (s : State) : State :=
      match scraped_rows s with
      | [] => s
      | rows =>
          {| q := q s; visited := visited s; articles := articles s;
             pages_visited := pages_visited s; scraped_rows := rows;
             disk := append_csv rows (disk s); fetch_log := fetch_log s |}
      end.

(** [main()] *)
Definition main (fuel : nat) (d : option CsvFile) : option Outcome :=
      match urlparse_netloc W (START_URL C) with
      | None => Some (Raised (init d))
      | Some base_netloc =>
          match loop base_netloc fuel (init d) with
          | Some (Next s) => Some (Next (final_flush s))
          | r => r
          end
      end.

(** The state after [n] iterations. *)
Fixpoint steps (base_netloc : string) (n : nat) (s : State) : State :=
      match n with
      | O => s
      | S k => state_of (body base_netloc (steps base_netloc k s))
      end.

(** The states the loop passes through. *)
Inductive reaches (base_netloc : string) (s : State) : State -> Prop :=
| reaches_refl : reaches base_netloc s s
| reaches_step s' o :
    reaches base_netloc s s' ->
    loop_cond s' = true ->
    body base_netloc s' = o ->
    reaches base_netloc s (state_of o).

End Loop.

(** The state after an iteration that dequeues a visited URL. *)
Definition skipped (s : State) (rest : list string) : State :=
  {| q := rest; visited := visited s; articles := articles s;
     pages_visited := pages_visited s; scraped_rows := scraped_rows s;
     disk := disk s; fetch_log := fetch_log s |}.

(** The data rows of the output file. *)
Definition rows_on_disk (d : option CsvFile) : list Row :=
  match d with Some f => csv_rows f | None => [] end.

(** The rows a state holds: those on disk, then the unflushed batch. *)
Definition output (s : State) : list Row :=
  rows_on_disk (disk s) ++ scraped_rows s.

(** What an iteration may add: nothing, or one row for the dequeued URL. *)
Definition collected_by (W : Web) (s s' : State) (u : string) : Prop :=
  (articles s' = articles s /\ output s' = output s)
  \/ (exists row html,
        fetch W u = Some html /\ py.truthy html = true
        /\ looks_like_article u = true
        /\ (py.rstrip_slash u ∉ articles s)
        /\ parse_article W html u = Some row
        /\ articles s' = {[py.rstrip_slash u]} ∪ articles s
        /\ output s' = output s ++ [row]).

(** A URL the crawl may hold: the configured seed, or the slash-stripped
    form of a link that [is_internal] accepted. *)
Definition on_site (W : Web) (C : Config) (base_netloc u : string) : Prop :=
  u = START_URL C
  \/ exists link, is_internal W link base_netloc = true /\ u = py.rstrip_slash link.

(** The key under which the article set remembers a row. *)
Definition row_key (r : Row) : string := py.rstrip_slash (url r).

End scraper_crawl.

(** ** Documents, JSON lines and the MongoDB servers *)

Module mongo.

(** A field of a document: the CSV reader yields strings, and [None] for a
    column a short row lacks; JSON [null] is the same [None]. *)
Inductive Value :=
| VNone
| VStr (s : string).

#[global] Instance Value_eq_dec : EqDecision Value.
Proof. solve_decision. Defined.

(** A document: a Python dict (a JSON object, a row of [csv.DictReader]). *)
Abbreviation Doc := (gmap string Value).

(** [d.get(k)]; also how a query reads a field (missing is null). *)
Definition get (d : Doc) (k : string) : Value := default VNone (d !! k).

(** Truthiness of a field value. *)
Definition truthy (v : Value) : bool :=
  match v with
  | VNone => false
  | VStr s => py.truthy s
  end.

(** What [json.loads] returns for a line: a dict, or some other JSON value
    (a list, a number, a string, [None]). *)
Inductive Parsed :=
| JObject (d : Doc)
| JOther.

(** [json.loads] ([None]: JSONDecodeError) and [json.dumps]. *)
Record Json := {
  loads : string -> option Parsed;
  dumps : Doc -> string
}.

(** [UpdateOne(filter, {"$set": doc}, upsert=...)] with a one-field
    equality filter. *)
Record UpdateOne := {
  op_filter : string * Value;
  op_set : Doc;
  op_upsert : bool
}.

Definition matches (f : string * Value) (d : Doc) : bool :=
  bool_decide (get d f.1 = f.2).

(** Update the first matching document; [None] when none matches. *)
Fixpoint update_first (op : UpdateOne) (coll : list Doc) : option (list Doc) :=
  match coll with
  | [] => None
  | d :: t =>
      if matches (op_filter op) d then Some ((op_set op ∪ d) :: t)
      else match update_first op t with
           | Some t' => Some (d :: t')
           | None => None
           end
  end.

(** What the server does with one operation: [$set] on the first match,
    else, for an upsert, insert the filter's field and apply [$set]. *)
Definition apply_op (coll : list Doc) (op : UpdateOne) : list Doc :=
  match update_first op coll with
  | Some coll' => coll'
  | None =>
      if op_upsert op
      then coll ++ [op_set op ∪ {[ (op_filter op).1 := (op_filter op).2 ]}]
      else coll
  end.

(** A server: its collection, and a script saying which of its coming
    round trips fail ([true]: the call raises, be it a network error or an
    error the server reports, such as a duplicate key under the unique
    index; past the script's end every call succeeds). [calls] counts the
    round trips made so far and [applied] lists the operation lists of the
    write calls that succeeded, oldest first. *)
Record Server := {
  docs : list Doc;
  faults : list bool;
  calls : nat;
  applied : list (list UpdateOne)
}.

(** One round trip: [true] when it succeeds. *)
Definition round_trip (s : Server) : bool * Server :=
  (negb (hd false (faults s)),
   {| docs := docs s; faults := tl (faults s); calls := S (calls s);
      applied := applied s |}).

(** [client.admin.command("ping")] *)
Definition ping (s : Server) : bool * Server := round_trip s.

(** [col.create_index("url", unique=True, background=True)]: a round trip;
    what the index then refuses is a failing round trip of the script. *)
Definition create_index (s : Server) : bool * Server := round_trip s.

(** [col.bulk_write(ops, ordered=False)]: the operations are executed in
    the order given, one of the orders the server may choose; a failed call
    is taken to leave the collection as it was. *)
Definition bulk_write (ops : list UpdateOne) (s : Server) : bool * Server :=
  let '(ok, s') := round_trip s in
  if ok then
    (true, {| docs := fold_left apply_op ops (docs s');
              faults := faults s'; calls := calls s';
              applied := applied s' ++ [ops] |})
  else (false, s').

(** [col.update_one(filter, update, upsert=True)] *)
Definition update_one (op : UpdateOne) (s : Server) : bool * Server :=
  bulk_write [op] s.


End mongo.

(** ** A JSON codec for flat documents

    [json.dumps] and [json.loads] restricted to what the fallback file
    holds for CSV rows: one object per line, string or null fields, and the
    two escapes a printable string needs. It instantiates [Json] in the
    examples; the general statements quantify over any codec. *)

Module flat_json.
Import mongo.

Definition dquote : ascii := "034"%char.
Definition backslash : ascii := "\"%char.

Fixpoint escape (s : string) : string :=
  match s with
  | EmptyString => EmptyString
  | String c r =>
      if Ascii.eqb c dquote || Ascii.eqb c backslash
      then String backslash (String c (escape r))
      else String c (escape r)
  end.

Definition quote (s : string) : string :=
  String dquote (escape s) +:+ String dquote EmptyString.

Definition dump_value (v : Value) : string :=
  match v with
  | VNone => "null"
  | VStr s => quote s
  end.

(** [json.dumps(d)] with Python's default separators. *)
Definition dumps (d : Doc) : string :=
  "{" +:+ py.join ", "
            (map (fun kv => quote kv.1 +:+ ": " +:+ dump_value kv.2) (map_to_list d))
      +:+ "}".

Definition json_space (c : ascii) : bool :=
  Ascii.eqb c " " || Ascii.eqb c "009" || Ascii.eqb c "010" || Ascii.eqb c "013".

(** The text after an opening quote: the decoded string and what follows
    its closing quote. *)
Fixpoint string_body (s : string) : option (string * string) :=
  match s with
  | EmptyString => None
  | String c r =>
      if Ascii.eqb c dquote then Some (EmptyString, r)
      else if Ascii.eqb c backslash then
        match r with
        | String e r' =>
            if Ascii.eqb e dquote || Ascii.eqb e backslash then
              match string_body r' with
              | Some (x, rest) => Some (String e x, rest)
              | None => None
              end
            else None
        | EmptyString => None
        end
      else
        match string_body r with
        | Some (x, rest) => Some (String c x, rest)
        | None => None
        end
  end.

Definition parse_string (s : string) : option (string * string) :=
  match py.lstrip_by json_space s with
  | String c r => if Ascii.eqb c dquote then string_body r else None
  | EmptyString => None
  end.

Definition parse_value (s : string) : option (Value * string) :=
  let s' := py.lstrip_by json_space s in
  if py.startswith "null" s' then Some (VNone, String.substring 4 (String.length s' - 4) s')
  else match parse_string s' with
       | Some (x, rest) => Some (VStr x, rest)
       | None => None
       end.

Definition expect (c : ascii) (s : string) : option string :=
  match py.lstrip_by json_space s with
  | String c' r => if Ascii.eqb c c' then Some r else None
  | EmptyString => None
  end.

(** The members after the opening brace, one per unit of [fuel]. *)
Fixpoint members (fuel : nat) (s : string) (acc : Doc) : option Doc :=
  match fuel with
  | O => None
  | S n =>
      match parse_string s with
      | None => None
      | Some (k, s1) =>
          match expect ":" s1 with
          | None => None
          | Some s2 =>
              match parse_value s2 with
              | None => None
              | Some (v, s3) =>
                  let acc' := <[k := v]> acc in
                  match expect "," s3 with
                  | Some s4 => members n s4 acc'
                  | None =>
                      match expect "}" s3 with
                      | Some s4 =>
                          if py.truthy (py.lstrip_by json_space s4) then None
                          else Some acc'
                      | None => None
                      end
                  end
              end
          end
      end
  end.

(** [json.loads(line)] *)
Definition loads (line : string) : option Doc :=
  match expect "{" line with
  | None => None
  | Some s1 =>
      match expect "}" s1 with
      | Some s2 => if py.truthy (py.lstrip_by json_space s2) then None else Some ∅
      | None => members (String.length line) s1 ∅
      end
  end.

(** The JSON values that are no object and that the examples need:
    [null], [true], [false] and the empty list. *)
Definition is_other (line : string) : bool :=
  let t := py.rstrip_by json_space (py.lstrip_by json_space line) in
  bool_decide (t = "null") || bool_decide (t = "true")
  || bool_decide (t = "false") || bool_decide (t = "[]").

Definition loads_any (line : string) : option Parsed :=
  match loads line with
  | Some d => Some (JObject d)
  | None => if is_other line then Some JOther else None
  end.

Definition codec : Json := {| mongo.loads := loads_any; mongo.dumps := dumps |}.

End flat_json.

(** ** store_to_db.py *)

Module store_to_db.
Import mongo.

Record World := {
  server : Server;
  FALLBACK : option string   (* the text of db_fallback.jsonl *)
}.

Inductive Outcome :=
| NoUri          (* MONGO_URI not set *)
| NoRows         (* nothing loaded from the CSV *)
| Stored         (* "All done." *)
| Degraded.      (* records saved to the fallback file *)

(** [save_fallback(rows)]: the file is opened with mode ["w"] and gets one
    [json.dumps] line per row. *)
Definition save_fallback (J : Json) (rows : list Doc) (old : option string)
  : option string :=
  Some (py.write_lines (map (dumps J) rows)).

(** The operation [upsert_to_mongo] issues for a row. *)
Definition upsert_op (r : Doc) : UpdateOne :=
  {| op_filter := ("url", get r "url"); op_set := r; op_upsert := true |}.

(** [upsert_to_mongo(rows, client)]: one [update_one] per row; the first
    failing call raises. *)
Fixpoint upsert_to_mongo (rows : list Doc) (s : Server) : bool * Server :=
  match rows with
  | [] => (true, s)
  | r :: t =>
      let '(ok, s') := update_one (upsert_op r) s in
      if ok then upsert_to_mongo t s' else (false, s')
  end.

(** [main()], given [MONGO_URI] and the rows [load_rows] returns. *)
Definition main (J : Json) (MONGO_URI : option string) (rows : list Doc) (w : World)
  : World * Outcome :=
  match MONGO_URI with
  | None => (w, NoUri)
  | Some _ =>
      match rows with
      | [] => (w, NoRows)
      | _ =>
          let '(ok, s1) := ping (server w) in
          if ok then
            let '(ok', s2) := upsert_to_mongo rows s1 in
            if ok' then ({| server := s2; FALLBACK := FALLBACK w |}, Stored)
            else ({| server := s2;
                     FALLBACK := save_fallback J rows (FALLBACK w) |}, Degraded)
          else ({| server := s1;
                   FALLBACK := save_fallback J rows (FALLBACK w) |}, Degraded)
      end
  end.

End store_to_db.

(** ** import_fallback.py *)

Module import_fallback.
Import mongo.

Record Config := {
  MONGO_URI : string;
  BATCH_SIZE : Z
}.

Inductive Tier := Primary | Local.

#[global] Instance Tier_eq_dec : EqDecision Tier.
Proof. solve_decision. Defined.

(** The two files by their text, and the two servers ([MONGO_URI] is taken
    to name another server than the local one). *)
Record World := {
  FALLBACK_PATH : option string;   (* db_fallback.jsonl *)
  imported_path : option string;   (* db_fallback.imported.jsonl *)
  primary : Server;                (* the server behind MONGO_URI *)
  local : Server                   (* mongodb://localhost:27017 *)
}.

Inductive Outcome :=
| Crashed              (* an exception left main *)
| NothingToImport      (* "No fallback records to import." *)
| ImportedTo (t : Tier)
| BothFailed.

(** What a run reports: how it ended and which tiers it connected to, in
    order. *)
Record Report := {
  outcome : Outcome;
  attempts : list Tier
}.

(** The lines [load_fallback] keeps: those of [splitlines()] that are not
    blank. *)
Definition lines_of (text : string) : list string :=
  List.filter (fun line => py.truthy (py.strip line)) (py.splitlines text).

(** [load_fallback()]: [None] when [json.loads] raises. *)
Definition load_fallback (J : Json) (w : World) : option (list Parsed) :=
  match FALLBACK_PATH w with
  | None => Some []
  | Some text => mapM (loads J) (lines_of text)
  end.

(** The key of a record and its operation, as [try_import] builds them. *)
Definition key (rec : Doc) : string * Value :=
  if truthy (get rec "url") then ("url", get rec "url")
  else ("title", get rec "title").

Definition import_op (rec : Doc) : UpdateOne :=
  {| op_filter := key rec; op_set := rec; op_upsert := true |}.

(** [range(0, n, step)] for a positive step. *)
Definition range_step (n step : nat) : list nat :=
  map (fun j => j * step) (seq 0 ((n + step - 1) / step)).

(** The slices [records[i:i+BATCH_SIZE]] of the batch loop; [None] when
    [range] raises ValueError on a zero step. A negative step gives an empty
    range. *)
Definition batches {A} (B : Z) (records : list A) : option (list (list A)) :=
  if (B =? 0)%Z then None
  else if (B <? 0)%Z then Some []
  else
    let b := Z.to_nat B in
    Some (map (fun i => take b (drop i records)) (range_step (length records) b)).

(** The operations of a batch; [None] when a record is no dict and
    [rec.get] raises AttributeError. *)
Definition batch_ops (batch : list Parsed) : option (list UpdateOne) :=
  mapM (fun rec => match rec with
                   | JObject d => Some (import_op d)
                   | JOther => None
                   end) batch.

(** The batch loop: the first batch with a record that is no dict, and the
    first failing [bulk_write], raise. *)
Fixpoint write_batches (bs : list (list Parsed)) (s : Server) : bool * Server :=
  match bs with
  | [] => (true, s)
  | batch :: t =>
      match batch_ops batch with
      | None => (false, s)
      | Some [] => write_batches t s
      | Some ops =>
          let '(ok, s') := bulk_write ops s in
          if ok then write_batches t s' else (false, s')
      end
  end.

(** [try_import(client, records)]: [false] when it raises. *)
Definition try_import (C : Config) (records : list Parsed) (s : Server) : bool * Server :=
  let '(ok, s1) := create_index s in
  if ok then
    match batches (BATCH_SIZE C) records with
    | None => (false, s1)
    | Some bs => write_batches bs s1
    end
  else (false, s1).

(** One [try] block: ping, then import. *)
Definition attempt (C : Config) (records : list Parsed) (s : Server) : bool * Server :=
  let '(ok, s1) := ping s in
  if ok then try_import C records s1 else (false, s1).

(** [FALLBACK_PATH.rename(FALLBACK_PATH.with_suffix(".imported.jsonl"))] *)
Definition rename_imported (w : World) (p l : Server) : World :=
  {| FALLBACK_PATH := None; imported_path := FALLBACK_PATH w;
     primary := p; local := l |}.

Definition with_servers (w : World) (p l : Server) : World :=
  {| FALLBACK_PATH := FALLBACK_PATH w; imported_path := imported_path w;
     primary := p; local := l |}.

(** The local attempt and what follows it. *)
Definition try_local (C : Config) (records : list Parsed) (w : World) (p : Server)
    (tried : list Tier) : World * Report :=
  let '(ok, l') := attempt C records (local w) in
  if ok then
    (rename_imported w p l',
     {| outcome := ImportedTo Local; attempts := tried ++ [Local] |})
  else
    (with_servers w p l',
     {| outcome := BothFailed; attempts := tried ++ [Local] |}).

(** [main()] *)
Definition main (J : Json) (C : Config) (w : World) : World * Report :=
  match load_fallback J w with
  | None => (w, {| outcome := Crashed; attempts := [] |})
  | Some [] => (w, {| outcome := NothingToImport; attempts := [] |})
  | Some records =>
      if py.truthy (MONGO_URI C) then
        let '(ok, p') := attempt C records (primary w) in
        if ok then
          (rename_imported w p' (local w),
           {| outcome := ImportedTo Primary; attempts := [Primary] |})
        else try_local C records w p' [Primary]
      else try_local C records w (primary w) []
  end.

(** What [client_for_uri] builds: a client with TLS and the certifi bundle,
    or a plain one. *)
Inductive Client :=
| TlsClient (uri : string)
| PlainClient (uri : string).

(** [client_for_uri(uri)]; [None] is the Python [None]. *)
Definition client_for_uri (uri : string) : option Client :=
  if negb (py.truthy uri) then None
  else if py.startswith "mongodb+srv" uri
          || (py.contains "mongodb.net" uri
              && negb (py.startswith "mongodb://localhost" uri))
       then Some (TlsClient uri)
       else Some (PlainClient uri).

(** The server a tier stands for. *)
Definition server_of (t : Tier) (w : World) : Server :=
  match t with
  | Primary => primary w
  | Local => local w
  end.

End import_fallback.

(** ** Concrete webs and files for the examples *)

Module examples.
Import scraper_crawl.

(** A platform that accepts delays of up to a day. *)
Definition day_long (x : QArith_base.Q) : bool :=
  QArith_base.Qle_bool x (QArith_base.Qmake 86400 1).

Definition home : string := "https://www.worldhistory.org/".
Definition article_url : string := "https://www.worldhistory.org/article/1".

(** A page on which no selector matches, with the given anchors. *)
Definition bare_page (hrefs : list string) : Page :=
  {| sel_h1 := None; soup_title := None; sel_meta_description := None;
     sel_author_a := None; sel_byline := None; sel_time := None;
     sel_tags_a := []; soup_text := ""; a_hrefs := hrefs |}.


(** A site whose every page links back to the root with [href="/"];
    [urljoin] of any of its pages with ["/"] is the root URL. *)
Definition home_web : Web :=
  {| http_body := fun _ => Some "<a href='/'>Home</a>";
     selenium_page_source := fun _ => None;
     BeautifulSoup := fun _ => bare_page ["/"];
     urljoin_rest := fun _ u => if bool_decide (u = "/") then Some home else Some u;
     urlparse_netloc := fun _ => Some "www.worldhistory.org";
     sleep_accepts := day_long |}.


(** A page with a heading and nothing else, served everywhere. *)
Definition titled_page : Page :=
  {| sel_h1 := Some "Rome"; soup_title := None; sel_meta_description := None;
     sel_author_a := None; sel_byline := None; sel_time := None;
     sel_tags_a := []; soup_text := "Rome"; a_hrefs := [] |}.

Definition titled_web : Web :=
  {| http_body := fun _ => Some "<h1>Rome</h1>";
     selenium_page_source := fun _ => None;
     BeautifulSoup := fun _ => titled_page;
     urljoin_rest := fun _ u => Some u;
     urlparse_netloc := fun _ => Some "www.worldhistory.org";
     sleep_accepts := day_long |}.

(** [urljoin] on absolute URLs: the second argument comes back. *)
Definition absolute_web : Web :=
  {| http_body := fun _ => None;
     selenium_page_source := fun _ => None;
     BeautifulSoup := fun _ => bare_page [];
     urljoin_rest := fun _ u => Some u;
     urlparse_netloc := fun _ => Some "x.org";
     sleep_accepts := day_long |}.

(** The defaults of the script. *)
Definition default_config : Config :=
  {| START_URL := home; MAX_RECORDS := 100; DELAY := Finite (QArith_base.Qmake 1 1);
     MAX_PAGES_TO_VISIT := 2000 |}.

Definition row_of (u : string) : Row :=
  {| title := "t"; url := u; date := ""; author := ""; category := "History";
     excerpt := ""; content_length := 0; tags := ""; notes := "" |}.

(** The output of a prior run that collected two articles. *)
Definition prior_csv : CsvFile :=
  {| csv_readable := true;
     csv_rows := [row_of "https://www.worldhistory.org/article/1/";
                  row_of "https://www.worldhistory.org/article/2/"] |}.

(** A resumed run with a lower record limit, started at a collected URL. *)
Definition resumed_config : Config :=
  {| START_URL := article_url; MAX_RECORDS := 1; DELAY := Finite (QArith_base.Qmake 1 1);
     MAX_PAGES_TO_VISIT := 2000 |}.

Definition article_config : Config :=
  {| START_URL := article_url; MAX_RECORDS := 100; DELAY := Finite (QArith_base.Qmake 1 1);
     MAX_PAGES_TO_VISIT := 2000 |}.

(** A run resumed over the prior output, started at an article that is not
    in it, with room for one more record. *)
Definition third_config : Config :=
  {| START_URL := "https://www.worldhistory.org/article/3"; MAX_RECORDS := 3;
     DELAY := Finite (QArith_base.Qmake 1 1); MAX_PAGES_TO_VISIT := 2000 |}.

(** [urljoin] on absolute URLs of one site: the URL comes back as
    [urlunparse] writes it, which is the URL itself but for an empty query,
    whose ['?'] is not written. *)
Definition query_web : Web :=
  {| http_body := fun _ => None;
     selenium_page_source := fun _ => None;
     BeautifulSoup := fun _ => bare_page [];
     urljoin_rest := fun _ u =>
       if bool_decide (u = "https://x.org/a?") then Some "https://x.org/a"
       else Some u;
     urlparse_netloc := fun _ => Some "x.org";
     sleep_accepts := day_long |}.

(** A site of article pages in a chain: the page at [u] has a heading and
    one anchor, to [u] followed by ["x"]. *)
Definition chain_page (html : string) : Page :=
  {| sel_h1 := Some "Rome"; soup_title := None; sel_meta_description := None;
     sel_author_a := None; sel_byline := None; sel_time := None;
     sel_tags_a := []; soup_text := "Rome"; a_hrefs := [html +:+ "x"] |}.

Definition chain_web : Web :=
  {| http_body := fun u => Some u;
     selenium_page_source := fun _ => None;
     BeautifulSoup := chain_page;
     urljoin_rest := fun _ u => Some u;
     urlparse_netloc := fun _ => Some "www.worldhistory.org";
     sleep_accepts := day_long |}.

(** [DELAY=-1] *)
Definition negative_delay : Config :=
  {| START_URL := article_url; MAX_RECORDS := 100;
     DELAY := Finite (QArith_base.Qmake (-1) 1); MAX_PAGES_TO_VISIT := 2000 |}.

(** Servers: one that answers, one whose first round trip fails. *)
Definition reliable : mongo.Server :=
  {| mongo.docs := []; mongo.faults := []; mongo.calls := 0;
     mongo.applied := [] |}.

Definition fails_once : mongo.Server :=
  {| mongo.docs := []; mongo.faults := [true]; mongo.calls := 0;
     mongo.applied := [] |}.

(** A server that answers the ping and fails the next call, and one that
    fails its third call. *)
Definition fails_second : mongo.Server :=
  {| mongo.docs := []; mongo.faults := [false; true]; mongo.calls := 0;
     mongo.applied := [] |}.


Definition rec_rome : gmap string mongo.Value :=
  {[ "url" := mongo.VStr "https://www.worldhistory.org/article/1";
     "title" := mongo.VStr "Rome" ]}.

(** The same URL scraped again under another title. *)
Definition rec_roma : gmap string mongo.Value :=
  {[ "url" := mongo.VStr "https://www.worldhistory.org/article/1";
     "title" := mongo.VStr "Roma" ]}.

Definition rec_athens : gmap string mongo.Value :=
  {[ "url" := mongo.VStr "https://www.worldhistory.org/article/2";
     "title" := mongo.VStr "Athens" ]}.

(** A row whose [url] column is empty. *)
Definition rec_no_url : gmap string mongo.Value :=
  {[ "url" := mongo.VStr ""; "title" := mongo.VStr "Sparta" ]}.

Definition import_config : import_fallback.Config :=
  {| import_fallback.MONGO_URI := "mongodb+srv://cluster0.example.mongodb.net";
     import_fallback.BATCH_SIZE := 200 |}.

(** A pending log of the given records, next to the two servers. *)
Definition pending (recs : list (gmap string mongo.Value)) (p l : mongo.Server)
  : import_fallback.World :=
  {| import_fallback.FALLBACK_PATH :=
       Some (py.write_lines (map flat_json.dumps recs));
     import_fallback.imported_path := None;
     import_fallback.primary := p;
     import_fallback.local := l |}.

(** U+00A0, a no-break space, in UTF-8. *)
Definition nbsp : string := String "194"%char (String "160"%char EmptyString).

(** A log of three lines that [strip()] empties. *)
Definition blank_text : string := py.write_lines [""; "   "; nbsp].

(** A log whose second line is cut short. *)
Definition corrupt_log : import_fallback.World :=
  {| import_fallback.FALLBACK_PATH :=
       Some (py.write_lines
               [flat_json.dumps rec_rome; "{bad"; flat_json.dumps rec_athens]);
     import_fallback.imported_path := None;
     import_fallback.primary := reliable;
     import_fallback.local := reliable |}.

(** An ingestion run that finds an earlier fallback file and no server. *)
Definition earlier_log : store_to_db.World :=
  {| store_to_db.server := fails_once;
     store_to_db.FALLBACK := Some (py.write_lines [flat_json.dumps rec_athens]) |}.

End examples.

(** * Properties *)

(** ** String methods *)

Lemma rstrip_by_idem p s : py.rstrip_by p (py.rstrip_by p s) = py.rstrip_by p s.
Proof.
  induction s as [|c r IH]; simpl; [done|].
  destruct (py.rstrip_by p r) as [|a r'] eqn:E.
  - destruct (p c) eqn:Hc; simpl; [done|]. by rewrite Hc.
  - change (py.rstrip_by p (String c (String a r')))
      with (match py.rstrip_by p (String a r') with
            | EmptyString => if p c then EmptyString else String c EmptyString
            | x => String c x
            end).
    by rewrite IH.
Qed.

Lemma rstrip_slash_idem s : py.rstrip_slash (py.rstrip_slash s) = py.rstrip_slash s.
Proof. apply rstrip_by_idem. Qed.

Lemma rstrip_slash_no_trailing s : py.ends_with_slash (py.rstrip_slash s) = false.
Proof.
  unfold py.rstrip_slash.
  induction s as [|c r IH]; simpl; [done|].
  destruct (py.rstrip_by _ r) as [|a r'] eqn:E.
  - destruct (Ascii.eqb c "/") eqn:Hc; simpl; [done|]. by rewrite Hc.
  - exact IH.
Qed.

Lemma before_hash_id s : py.has_hash s = false -> py.before_hash s = s.
Proof.
  induction s as [|c r IH]; simpl; [done|].
  destruct (Ascii.eqb c "#"); simpl; [done|].
  intros H. by rewrite IH.
Qed.

Lemma before_hash_no_hash s : py.has_hash (py.before_hash s) = false.
Proof.
  induction s as [|c r IH]; simpl; [done|].
  destruct (Ascii.eqb c "#") eqn:E; simpl; [done|]. by rewrite E.
Qed.

Lemma truthy_true s : py.truthy s = true <-> s <> "".
Proof. destruct s; simpl; split; congruence. Qed.

Lemma string_app_cons c (a b : string) : String c a +:+ b = String c (a +:+ b).
Proof. reflexivity. Qed.

(** A line boundary is looked for in the next three bytes: before the
    newline that ends a line without one, none is found. *)
Lemma break_width_before_newline s rest :
  s <> "" -> py.break_width s = 0%nat ->
  py.break_width (s +:+ py.newline +:+ rest) = 0%nat.
Proof.
  intros Hne. destruct s as [|c1 [|c2 [|c3 r]]]; [done| | |];
    unfold py.newline; rewrite ?string_app_cons; simpl;
    generalize (nat_of_ascii c1); intros n1;
    try (generalize (nat_of_ascii c2); intros n2);
    try (generalize (nat_of_ascii c3); intros n3);
    destruct (n1 =? 13)%nat; try (destruct (n2 =? 10)%nat); try done;
    destruct ((n1 =? 10)%nat || (n1 =? 11)%nat || (n1 =? 12)%nat
              || (n1 =? 28)%nat || (n1 =? 29)%nat || (n1 =? 30)%nat);
    try done; simpl; rewrite ?andb_false_r; try done;
    destruct rest; done.
Qed.

Lemma string_app_nil_r s : s +:+ "" = s.
Proof. induction s as [|c s IH]; [done|]. by rewrite string_app_cons, IH. Qed.

Lemma string_app_assoc (a b c : string) : (a +:+ b) +:+ c = a +:+ (b +:+ c).
Proof. induction a as [|x a IH]; [done|]. by rewrite !string_app_cons, IH. Qed.

Lemma string_app_length (a b : string) :
  String.length (a +:+ b) = (String.length a + String.length b)%nat.
Proof. induction a as [|x a IH]; [done|]. rewrite string_app_cons. simpl. by rewrite IH. Qed.

(** Reading a line that holds no boundary, up to its newline. *)
Lemma splitlines_fuel_line l cur rest fuel :
  py.no_break l = true ->
  (String.length l + String.length rest + 1 < fuel)%nat ->
  py.splitlines_fuel fuel cur (l +:+ py.newline +:+ rest)
  = (cur +:+ l) :: py.splitlines_fuel (fuel - String.length l - 1) "" rest.
Proof.
  revert cur fuel. induction l as [|c l IH]; intros cur fuel Hnb Hfuel.
  - destruct fuel as [|n]; [lia|]. rewrite string_app_nil_r.
    change ("" +:+ py.newline +:+ rest) with (String "010" rest).
    cbn [py.splitlines_fuel]. 
    change (py.break_width (String "010" rest)) with 1%nat. cbn iota.
    change (py.skip 1 (String "010" rest)) with rest.
    do 2 f_equal. simpl. lia.
  - destruct fuel as [|n]; [simpl in Hfuel; lia|].
    cbn [py.no_break] in Hnb. apply andb_prop in Hnb as [Hb Hnb].
    apply Nat.eqb_eq in Hb.
    pose proof (break_width_before_newline (String c l) rest ltac:(done) Hb) as Hbw.
    rewrite string_app_cons in Hbw |- *. cbn [py.splitlines_fuel]. rewrite Hbw.
    rewrite (IH _ _ Hnb) by (simpl in Hfuel; lia).
    rewrite string_app_assoc, string_app_cons. simpl. do 2 f_equal.
Qed.

(** [splitlines()] gives back the lines that were written, when none of
    them holds a line boundary. *)
Lemma splitlines_write_lines lines :
  Forall (fun l => py.no_break l = true) lines ->
  py.splitlines (py.write_lines lines) = lines.
Proof.
  unfold py.splitlines.
  assert (H : forall fuel,
            Forall (fun l => py.no_break l = true) lines ->
            (String.length (py.write_lines lines) < fuel)%nat ->
            py.splitlines_fuel fuel "" (py.write_lines lines) = lines).
  { induction lines as [|l t IH]; intros fuel Hall Hfuel.
    - destruct fuel; [simpl in Hfuel; lia|done].
    - apply Forall_cons in Hall as [Hl Ht]. cbn [py.write_lines] in *.
      rewrite !string_app_length in Hfuel. simpl in Hfuel.
      rewrite splitlines_fuel_line by (try done; lia).
      f_equal. apply IH; [done|lia]. }
  intros Hall. apply H; [done|lia].
Qed.

(** ** The crawl loop *)

Section CrawlFacts.
Import scraper_crawl.
Context (W : Web) (C : Config) (base_netloc : string).

Lemma periodic_flush_output rows d :
  rows_on_disk (periodic_flush rows d).2 ++ (periodic_flush rows d).1
  = rows_on_disk d ++ rows.
Proof.
  unfold periodic_flush. destruct (10 <=? length rows)%nat; simpl; [|done].
  destruct d; simpl; by rewrite ?app_nil_r.
Qed.

(** What one iteration does, case by case: it either skips a visited URL,
    or marks the URL visited, counts it, logs the fetch, and adds at most
    one row and one article. *)
Lemma body_spec s u rest :
  q s = u :: rest ->
  (u ∈ visited s /\ body W C base_netloc s = Next (skipped s rest))
  \/ ((u ∉ visited s)
      /\ visited (state_of (body W C base_netloc s)) = {[u]} ∪ visited s
      /\ pages_visited (state_of (body W C base_netloc s)) = S (pages_visited s)
      /\ fetch_log (state_of (body W C base_netloc s)) = fetch_log s ++ [u]
      /\ collected_by W s (state_of (body W C base_netloc s)) u).
Proof.
  intros Hq. unfold body. rewrite Hq.
  destruct (bool_decide (u ∈ visited s)) eqn:Hv.
  { left. apply bool_decide_eq_true in Hv. done. }
  right. apply bool_decide_eq_false in Hv. split; [done|].
  assert (Hsame : forall s', articles s' = articles s -> output s' = output s ->
                             collected_by W s s' u) by (intros; by left).
  destruct (fetch W u) as [html|] eqn:Hf; simpl; [|by auto].
  destruct (py.truthy html) eqn:Hh; simpl; [|by auto].
  destruct (extract_links W html u) as [links|]; simpl; [|by auto].
  destruct (collect W html u (scraped_rows s) (articles s)) as [rows arts] eqn:Hc.
  assert (Hrows : forall s',
            articles s' = arts -> output s' = rows_on_disk (disk s) ++ rows ->
            collected_by W s s' u).
  { intros s' Harts Hout. unfold collect in Hc.
    destruct (looks_like_article u) eqn:Ha;
      [|inversion Hc; subst; by apply Hsame].
    destruct (bool_decide (py.rstrip_slash u ∈ articles s)) eqn:Hn;
      [inversion Hc; subst; by apply Hsame|].
    apply bool_decide_eq_false in Hn.
    destruct (parse_article W html u) as [row|] eqn:Hpa;
      [|inversion Hc; subst; by apply Hsame].
    inversion Hc; subst. right. exists row, html.
    repeat split; try done. rewrite Hout. unfold output. by rewrite app_assoc. }
  destruct (negb (sleep_returns W C)); simpl.
  { repeat split; try done. by apply Hrows. }
  pose proof (periodic_flush_output rows (disk s)) as Hpf.
  destruct (periodic_flush rows (disk s)) as [rows' d] eqn:Hp. simpl in *.
  repeat split; try done. by apply Hrows.
Qed.

Lemma loop_cond_true s :
  loop_cond C s = true ->
  (exists u rest, q s = u :: rest)
  /\ (Z.of_nat (size (articles s)) < MAX_RECORDS C)%Z
  /\ (Z.of_nat (pages_visited s) < MAX_PAGES_TO_VISIT C)%Z.
Proof.
  unfold loop_cond. intros H.
  apply andb_prop in H as [H H3]. apply andb_prop in H as [H1 H2].
  apply Z.ltb_lt in H2, H3. repeat split; try done.
  destruct (q s) as [|u rest]; [done|]. by exists u, rest.
Qed.

Lemma reaches_front s o s'' :
  loop_cond C s = true -> body W C base_netloc s = o ->
  reaches W C base_netloc (state_of o) s'' -> reaches W C base_netloc s s''.
Proof.
  intros Hc Hb Hr. induction Hr as [|s2 o2 Hr IH Hc2 Hb2].
  - eapply reaches_step; [apply reaches_refl|done|done].
  - eapply reaches_step; [by apply IH|done|done].
Qed.

(** A finished loop ended in a state the step relation reaches. *)
Lemma loop_reaches fuel s o :
  loop W C base_netloc fuel s = Some o -> reaches W C base_netloc s (state_of o).
Proof.
  revert s. induction fuel as [|n IH]; intros s; simpl.
  - destruct (loop_cond C s); [done|]. intros [= <-]. apply reaches_refl.
  - destruct (loop_cond C s) eqn:Hc; [|intros [= <-]; apply reaches_refl].
    destruct (body W C base_netloc s) as [s'|s'] eqn:Hb.
    + intros H. eapply reaches_front; [done|done|]. simpl. by apply IH.
    + intros [= <-]. eapply reaches_step; [apply reaches_refl|done|done].
Qed.

(** A loop that ends without an exception ends because its test fails. *)
Lemma loop_exit fuel s s' :
  loop W C base_netloc fuel s = Some (Next s') -> loop_cond C s' = false.
Proof.
  revert s. induction fuel as [|n IH]; intros s; simpl.
  - destruct (loop_cond C s) eqn:Hc; [done|]. by intros [= <-].
  - destruct (loop_cond C s) eqn:Hc; [|by intros [= <-]].
    destruct (body W C base_netloc s) as [s1|s1]; [apply IH|done].
Qed.

(** The loop ends: every iteration either counts a page, of which the
    test allows fewer than [MAX_PAGES_TO_VISIT], or shortens the queue. *)
Lemma loop_terminates s : exists fuel o, loop W C base_netloc fuel s = Some o.
Proof.
  remember (Z.to_nat (MAX_PAGES_TO_VISIT C - Z.of_nat (pages_visited s))) as n eqn:Hn.
  assert (Hle : (Z.to_nat (MAX_PAGES_TO_VISIT C - Z.of_nat (pages_visited s)) <= n)%nat)
    by lia.
  clear Hn. revert s Hle.
  induction n as [|n IHn]; intros s Hle.
  - exists 0%nat, (Next s). simpl.
    destruct (loop_cond C s) eqn:Hc; [|done].
    apply loop_cond_true in Hc as (_ & _ & Hc). lia.
  - remember (length (q s)) as m eqn:Hm.
    assert (Hlen : (length (q s) <= m)%nat) by lia. clear Hm.
    revert s Hle Hlen. induction m as [|m IHm]; intros s Hle Hlen.
    + exists 0%nat, (Next s). simpl.
      destruct (loop_cond C s) eqn:Hc; [|done].
      apply loop_cond_true in Hc as ((u & rest & Hq) & _). rewrite Hq in Hlen.
      simpl in Hlen. lia.
    + destruct (loop_cond C s) eqn:Hc.
      2:{ exists 0%nat, (Next s). simpl. by rewrite Hc. }
      pose proof Hc as Hc'.
      apply loop_cond_true in Hc' as ((u & rest & Hq) & _ & Hpv).
      destruct (body W C base_netloc s) as [s1|s1] eqn:Hb.
      2:{ exists 1%nat, (Raised s1). simpl. by rewrite Hc, Hb. }
      assert (Hnext : exists fuel o, loop W C base_netloc fuel s1 = Some o).
      { destruct (body_spec s u rest Hq) as [[Hv Hs]|(Hv & _ & Hp & _)].
        - rewrite Hb in Hs. injection Hs as ->. apply IHm; simpl; [done|].
          rewrite Hq in Hlen. simpl in Hlen. lia.
        - rewrite Hb in Hp. simpl in Hp. apply IHn. rewrite Hp. lia. }
      destruct Hnext as (fuel & o & Hl). exists (S fuel), o. simpl.
      by rewrite Hc, Hb.
Qed.

(** Every URL in the fetch log was marked visited, and none is logged
    twice: the loop logs a URL only when it was not in the visited set. *)
Lemma fetch_log_once s0 s :
  reaches W C base_netloc s0 s ->
  NoDup (fetch_log s0) -> (forall u, u ∈ fetch_log s0 -> u ∈ visited s0) ->
  NoDup (fetch_log s) /\ (forall u, u ∈ fetch_log s -> u ∈ visited s).
Proof.
  intros Hr Hnd Hin. induction Hr as [|s2 o Hr IH Hc Hb]; [done|].
  destruct IH as [IH1 IH2]. subst o.
  apply loop_cond_true in Hc as ((u & rest & Hq) & _).
  destruct (body_spec s2 u rest Hq) as [[Hv Hs]|(Hv & Hvis & _ & Hlog & _)];
    [by rewrite Hs|].
  rewrite Hlog, Hvis. split.
  - apply NoDup_app. repeat split; [done| |apply NoDup_singleton].
    intros x Hx ->%list_elem_of_singleton. by apply Hv, IH2.
  - intros x [Hx| ->%list_elem_of_singleton]%elem_of_app.
    + apply elem_of_union_r. by apply IH2.
    + by apply elem_of_union_l, elem_of_singleton.
Qed.

(** The article set never shrinks, grows by at most one URL per iteration,
    and grows only while it holds fewer than [MAX_RECORDS] URLs. *)
Lemma articles_bound s0 s :
  reaches W C base_netloc s0 s ->
  articles s0 ⊆ articles s
  /\ (Z.of_nat (size (articles s))
      <= Z.max (MAX_RECORDS C) (Z.of_nat (size (articles s0))))%Z.
Proof.
  intros Hr. induction Hr as [|s2 o Hr IH Hc Hb]; [split; [done|lia]|].
  destruct IH as [IH1 IH2]. subst o.
  apply loop_cond_true in Hc as ((u & rest & Hq) & Hsz & _).
  destruct (body_spec s2 u rest Hq) as [[Hv ->]|(Hv & _ & _ & _ & Hcol)];
    [done|].
  destruct Hcol as [[-> _]|(row & html & _ & _ & _ & Hn & _ & -> & _)]; [done|].
  split; [set_solver|].
  rewrite size_union by set_solver. rewrite size_singleton. lia.
Qed.

End CrawlFacts.

Section CrawlRuns.
Import scraper_crawl.
Context (W : Web) (C : Config) (base_netloc : string).

Lemma parse_article_url html u row :
  parse_article W html u = Some row -> url row = u.
Proof.
  unfold parse_article. repeat case_match; try done; by intros [= <-].
Qed.

(** Rows are only ever added to the output, and a row is added only for a
    URL whose slash-stripped form was not in the article set. *)
Lemma output_grows s0 s :
  reaches W C base_netloc s0 s ->
  exists new, output s = output s0 ++ new
              /\ forall r, r ∈ new -> py.rstrip_slash (url r) ∉ articles s0.
Proof.
  intros Hr. induction Hr as [|s2 o Hr IH Hc Hb].
  { exists []. split; [by rewrite app_nil_r|]. by intros r ?%elem_of_nil. }
  destruct IH as (new & IH1 & IH2). subst o.
  pose proof (articles_bound W C base_netloc s0 s2 Hr) as [Hsub _].
  apply loop_cond_true in Hc as ((u & rest & Hq) & _).
  destruct (body_spec W C base_netloc s2 u rest Hq)
    as [[Hv ->]|(Hv & _ & _ & _ & Hcol)].
  { by exists new. }
  destruct Hcol as [[_ ->]|(row & html & _ & _ & _ & Hn & Hp & _ & ->)].
  { by exists new. }
  exists (new ++ [row]). split; [by rewrite IH1, app_assoc|].
  intros r [Hr'| ->%list_elem_of_singleton]%elem_of_app; [by apply IH2|].
  apply parse_article_url in Hp. rewrite Hp. set_solver.
Qed.

(** The final flush puts the whole output on disk. *)
Lemma final_flush_disk s : rows_on_disk (disk (final_flush s)) = output s.
Proof.
  unfold final_flush, output.
  destruct (scraped_rows s) as [|r rows] eqn:E; simpl.
  - by rewrite app_nil_r.
  - by destruct (disk s).
Qed.

(** In a run of [main] no URL string is handed to the fetch tier twice,
    and every fetched URL was marked visited. *)
Lemma fetch_log_once_from_init d s :
  reaches W C base_netloc (init C d) s ->
  NoDup (fetch_log s) /\ (forall u, u ∈ fetch_log s -> u ∈ visited s).
Proof.
  intros Hr. apply (fetch_log_once W C base_netloc _ _ Hr).
  - apply NoDup_nil_2.
  - by intros u ?%elem_of_nil.
Qed.

End CrawlRuns.

(** *** C1: the seed is queued as configured *)

(** C1 (evaluation at the failing input). With the default [START_URL],
    which ends in a slash, and a home page that links to the root, the crawl
    hands two URLs to the fetch tier, the seed and its slash-stripped form:
    one canonical URL, fetched twice. The links are stripped before they are
    queued; the seed is not. *)
Theorem C1_seed_fetched_twice :
  exists s,
    scraper_crawl.main examples.home_web examples.default_config 3 None
      = Some (scraper_crawl.Next s)
    /\ scraper_crawl.fetch_log s
       = ["https://www.worldhistory.org/"; "https://www.worldhistory.org"]
    /\ map py.rstrip_slash (scraper_crawl.fetch_log s)
       = ["https://www.worldhistory.org"; "https://www.worldhistory.org"].
Proof. eexists. split; [vm_compute; reflexivity|]. split; reflexivity. Qed.

(** *** C2: bounded yield *)

(** C2 (the claim fails as stated). A run resumed over a prior output of two
    URLs with [MAX_RECORDS = 1] ends with two URLs in the article set. *)
Lemma C2_seeded_set_exceeds_limit :
  exists s,
    scraper_crawl.main examples.home_web examples.resumed_config 0
      (Some examples.prior_csv) = Some (scraper_crawl.Next s)
    /\ (scraper_crawl.MAX_RECORDS examples.resumed_config
        < Z.of_nat (size (scraper_crawl.articles s)))%Z.
Proof. eexists. split; [vm_compute; reflexivity|]. vm_compute. reflexivity. Qed.

(** C2 (amended). In every state the loop passes through, the article set
    holds at most [MAX_RECORDS] URLs or the number seeded from the prior
    output, whichever is larger. An iteration runs only while the queue is
    non-empty, the set holds fewer than [MAX_RECORDS] URLs and fewer than
    [MAX_PAGES_TO_VISIT] pages were visited, and it adds at most one URL to
    the set. The loop ends, and when it ends without an exception one of the
    three conditions fails. *)
Theorem C2_bounded_yield (W : scraper_crawl.Web) (C : scraper_crawl.Config)
    (d : option scraper_crawl.CsvFile) (base_netloc : string)
    (s : scraper_crawl.State) :
  scraper_crawl.reaches W C base_netloc (scraper_crawl.init C d) s ->
  (Z.of_nat (size (scraper_crawl.articles s))
   <= Z.max (scraper_crawl.MAX_RECORDS C)
            (Z.of_nat (size (scraper_crawl.load_existing d))))%Z
  /\ (scraper_crawl.loop_cond C s = true ->
      scraper_crawl.q s <> []
      /\ (Z.of_nat (size (scraper_crawl.articles s)) < scraper_crawl.MAX_RECORDS C)%Z
      /\ (Z.of_nat (scraper_crawl.pages_visited s)
          < scraper_crawl.MAX_PAGES_TO_VISIT C)%Z
      /\ (size (scraper_crawl.articles
                  (scraper_crawl.state_of (scraper_crawl.body W C base_netloc s)))
          <= S (size (scraper_crawl.articles s)))%nat
      /\ (Z.of_nat (size (scraper_crawl.articles
                  (scraper_crawl.state_of (scraper_crawl.body W C base_netloc s))))
          <= scraper_crawl.MAX_RECORDS C)%Z)
  /\ (exists fuel o,
        scraper_crawl.loop W C base_netloc fuel (scraper_crawl.init C d) = Some o
        /\ forall s', o = scraper_crawl.Next s' ->
             scraper_crawl.loop_cond C s' = false).
Proof.
  intros Hr. split; [|split].
  - by apply (articles_bound W C base_netloc _ _ Hr).
  - intros Hc.
    apply loop_cond_true in Hc as ((u & rest & Hq) & Hsz & Hpv).
    split; [by rewrite Hq|]. split; [done|]. split; [done|].
    destruct (body_spec W C base_netloc s u rest Hq)
      as [[Hv ->]|(Hv & _ & _ & _ & Hcol)]; simpl; [lia|].
    destruct Hcol as [[-> _]|(row & html & _ & _ & _ & Hn & _ & -> & _)]; [lia|].
    rewrite size_union by set_solver. rewrite size_singleton. lia.
  - destruct (loop_terminates W C base_netloc (scraper_crawl.init C d))
      as (fuel & o & Hl).
    exists fuel, o. split; [done|]. intros s' ->. by eapply loop_exit.
Qed.

Lemma C2_bounded_yield_witness :
  size (scraper_crawl.load_existing (Some examples.prior_csv)) = 2%nat
  /\ (Z.of_nat
        (size (scraper_crawl.articles
                 (scraper_crawl.state_of
                    (scraper_crawl.body examples.titled_web examples.third_config
                       "www.worldhistory.org"
                       (scraper_crawl.init examples.third_config
                          (Some examples.prior_csv))))))
      <= Z.max 3 2)%Z
  /\ "https://www.worldhistory.org/article/3"
       ∈ scraper_crawl.articles
           (scraper_crawl.state_of
              (scraper_crawl.body examples.titled_web examples.third_config
                 "www.worldhistory.org"
                 (scraper_crawl.init examples.third_config
                    (Some examples.prior_csv)))).
Proof.
  split; [vm_compute; reflexivity|]. split.
  - destruct (C2_bounded_yield examples.titled_web examples.third_config
                (Some examples.prior_csv) "www.worldhistory.org"
                (scraper_crawl.state_of
                   (scraper_crawl.body examples.titled_web examples.third_config
                      "www.worldhistory.org"
                      (scraper_crawl.init examples.third_config
                         (Some examples.prior_csv)))))
      as [H _].
    + eapply scraper_crawl.reaches_step;
        [apply scraper_crawl.reaches_refl|vm_compute; reflexivity|reflexivity].
    + assert (E : size (scraper_crawl.load_existing (Some examples.prior_csv))
                  = 2%nat) by (vm_compute; reflexivity).
      rewrite E in H. exact H.
  - apply (bool_decide_unpack _). vm_compute. exact I.
Defined.

(** *** C7: resuming over a prior output *)

(** C7 (the claim fails as stated). Over a prior output that lists the
    start URL, the run starts with an empty visited set and fetches that
    URL again. *)
Lemma C7_resumed_crawl_refetches :
  scraper_crawl.visited
    (scraper_crawl.init examples.article_config (Some examples.prior_csv)) = ∅
  /\ examples.article_url
       ∈ scraper_crawl.load_existing (Some examples.prior_csv)
  /\ exists s,
       scraper_crawl.main examples.home_web examples.article_config 3
         (Some examples.prior_csv) = Some (scraper_crawl.Next s)
       /\ examples.article_url ∈ scraper_crawl.fetch_log s.
Proof.
  split; [reflexivity|]. split.
  - apply (bool_decide_unpack _). vm_compute. exact I.
  - eexists. split; [vm_compute; reflexivity|].
    apply (bool_decide_unpack _). vm_compute. exact I.
Qed.

(** C7 (amended). When the prior output is readable, every URL recorded in
    it is loaded, trailing slashes stripped, into the article set only; the
    visited set starts empty. Through the whole run those URLs stay in the
    article set and every row the run adds to the output is for a URL whose
    stripped form was not among them: nothing is collected again. *)
Theorem C7_resume_seeds_articles (W : scraper_crawl.Web) (C : scraper_crawl.Config)
    (f : scraper_crawl.CsvFile) (base_netloc : string) (s : scraper_crawl.State) :
  scraper_crawl.csv_readable f = true ->
  scraper_crawl.reaches W C base_netloc (scraper_crawl.init C (Some f)) s ->
  scraper_crawl.visited (scraper_crawl.init C (Some f)) = ∅
  /\ (forall r, r ∈ scraper_crawl.csv_rows f ->
        py.rstrip_slash (scraper_crawl.url r) ∈ scraper_crawl.articles s)
  /\ (exists new,
        scraper_crawl.output s = scraper_crawl.csv_rows f ++ new
        /\ forall r, r ∈ new ->
             forall r0, r0 ∈ scraper_crawl.csv_rows f ->
               py.rstrip_slash (scraper_crawl.url r)
               <> py.rstrip_slash (scraper_crawl.url r0)).
Proof.
  intros Hread Hr. split; [done|].
  assert (Hseed : forall r, r ∈ scraper_crawl.csv_rows f ->
            py.rstrip_slash (scraper_crawl.url r)
              ∈ scraper_crawl.articles (scraper_crawl.init C (Some f))).
  { intros r Hin. simpl. rewrite Hread. apply elem_of_list_to_set.
    apply list_elem_of_fmap. by exists r. }
  split.
  - intros r Hin.
    destruct (articles_bound W C base_netloc _ _ Hr) as [Hsub _].
    by apply Hsub, Hseed.
  - destruct (output_grows W C base_netloc _ _ Hr) as (new & Hout & Hnew).
    exists new. split.
    + rewrite Hout. unfold scraper_crawl.output. simpl. by rewrite app_nil_r.
    + intros r Hin r0 Hin0 Heq. apply (Hnew r Hin). rewrite Heq. by apply Hseed.
Qed.

Lemma C7_resume_seeds_articles_witness :
  "https://www.worldhistory.org/article/2"
    ∈ scraper_crawl.articles
        (scraper_crawl.init examples.article_config (Some examples.prior_csv)).
Proof.
  destruct (C7_resume_seeds_articles examples.home_web examples.article_config
              examples.prior_csv "www.worldhistory.org" _ eq_refl
              (scraper_crawl.reaches_refl _ _ _ _)) as (_ & H & _).
  apply (H (examples.row_of "https://www.worldhistory.org/article/2/")).
  apply list_elem_of_In. simpl. auto.
Defined.

(** *** C6: partial extraction *)




(** *** C10: normalising a normalised URL *)

Lemma rstrip_by_no_hash p s :
  py.has_hash s = false -> py.has_hash (py.rstrip_by p s) = false.
Proof.
  induction s as [|c r IH]; simpl; [done|].
  intros [Hc Hr]%orb_false_elim. specialize (IH Hr).
  destruct (py.rstrip_by p r) as [|a r'] eqn:E.
  - destruct (p c); simpl; [done|]. by rewrite Hc.
  - simpl. rewrite Hc. simpl. exact IH.
Qed.

(** C10 (the claim fails as stated), on three inputs. For the fragment-only
    href ["#top"] on a base that itself carries a fragment, [urljoin]
    returns the base: the result keeps a fragment, and normalising it again
    removes it. For the href ["https://x.org/a?/"], the slash-strip leaves
    an empty query, which [urljoin] does not write back: the second result
    is ["https://x.org/a"]. For the href ["/"] on an empty base the result
    is the empty string, for which [normalize_url] returns [None]. *)
Lemma C10_fragment_base_not_fixed :
  (scraper_crawl.normalize_url examples.absolute_web "#top" "https://x.org/p#sec"
     = Some (Some "https://x.org/p#sec")
   /\ py.has_hash "https://x.org/p#sec" = true
   /\ scraper_crawl.normalize_url examples.absolute_web "https://x.org/p#sec"
        "https://x.org/p#sec"
      = Some (Some "https://x.org/p"))
  /\ (scraper_crawl.normalize_url examples.query_web "https://x.org/a?/"
        "https://x.org/"
      = Some (Some "https://x.org/a?")
      /\ scraper_crawl.normalize_url examples.query_web "https://x.org/a?"
           "https://x.org/"
         = Some (Some "https://x.org/a"))
  /\ (scraper_crawl.normalize_url examples.absolute_web "/" "" = Some (Some "")
      /\ scraper_crawl.normalize_url examples.absolute_web "" "" = Some None).
Proof. repeat split. Qed.

(** C10 (amended). Let [urljoin] answer without a ['#'] whenever its second
    argument is non-empty and holds none, as [urllib.parse] does. The result
    of [normalize_url] never ends in a slash and is unchanged by a further
    slash-strip. It holds no fragment, unless the href is nothing but a
    fragment and the base carries one. And normalising a result that is not
    empty again, with the same base, returns it unchanged whenever [urljoin]
    of the base and the result is the result, which is the one thing the
    second pass adds to the first. *)
Theorem C10_normalize_url_idempotent (W : scraper_crawl.Web) (href base out : string) :
  (forall b u r,
     u <> "" -> py.has_hash u = false ->
     scraper_crawl.urljoin_rest W b u = Some r -> py.has_hash r = false) ->
  scraper_crawl.normalize_url W href base = Some (Some out) ->
  py.ends_with_slash out = false
  /\ py.rstrip_slash out = out
  /\ (py.before_hash href <> "" \/ py.has_hash base = false ->
      py.has_hash out = false
      /\ (out <> "" ->
          scraper_crawl.urljoin W base out = Some out ->
          scraper_crawl.normalize_url W out base = Some (Some out))).
Proof.
  intros Hlib. unfold scraper_crawl.normalize_url.
  destruct (negb (py.truthy href)); [done|].
  destruct (scraper_crawl.urljoin W base (py.before_hash href)) as [j|] eqn:Hj;
    [|done].
  intros [= <-]. split; [apply rstrip_slash_no_trailing|].
  split; [apply rstrip_slash_idem|].
  intros Hcase.
  assert (Hh : py.has_hash (py.rstrip_slash j) = false).
  { apply rstrip_by_no_hash. unfold scraper_crawl.urljoin in Hj.
    destruct (py.truthy base) eqn:Hb; simpl in Hj.
    - destruct (py.truthy (py.before_hash href)) eqn:Hu; simpl in Hj.
      + eapply Hlib; [|apply before_hash_no_hash|exact Hj].
        by apply truthy_true.
      + injection Hj as <-. destruct Hcase as [Hne|Hbase]; [|done].
        exfalso. apply Hne. by destruct (py.before_hash href).
    - injection Hj as <-. apply before_hash_no_hash. }
  split; [done|].
  intros Hne Hfix. apply truthy_true in Hne. rewrite Hne. simpl.
  rewrite (before_hash_id _ Hh), Hfix. by rewrite rstrip_slash_idem.
Qed.

Lemma C10_normalize_url_idempotent_witness :
  py.has_hash "https://x.org/a" = false
  /\ scraper_crawl.normalize_url examples.absolute_web "https://x.org/a"
       "https://x.org/" = Some (Some "https://x.org/a").
Proof.
  destruct (C10_normalize_url_idempotent examples.absolute_web
              "https://x.org/a/#frag" "https://x.org/" "https://x.org/a")
    as (_ & _ & H).
  - intros b u r _ Hu [= <-]. exact Hu.
  - reflexivity.
  - destruct H as [Hh Hidem]; [left; discriminate|].
    split; [exact Hh|]. apply Hidem; [discriminate|reflexivity].
Defined.

(** ** Upserts on a collection *)

Section UpsertFacts.
Import mongo.

(** A filter on a field of the document being set, as both scripts build
    it, still matches after the update. *)
Lemma get_union_set (rec d : Doc) (k : string) :
  get d k = get rec k -> get (rec ∪ d) k = get rec k.
Proof.
  unfold get. intros H. rewrite lookup_union.
  destruct (rec !! k) as [x|] eqn:Hr, (d !! k) as [y|] eqn:Hd; simpl in *; done.
Qed.

Lemma matches_after_set (k : string) (rec d : Doc) :
  matches (k, get rec k) d = true -> matches (k, get rec k) (rec ∪ d) = true.
Proof.
  intros Hm. apply bool_decide_eq_true. apply bool_decide_eq_true in Hm.
  simpl in *. by apply get_union_set.
Qed.

Lemma update_first_fixed (k : string) (rec : Doc) (up : bool) (coll coll' : list Doc) :
  let op := {| op_filter := (k, get rec k); op_set := rec; op_upsert := up |} in
  update_first op coll = Some coll' -> update_first op coll' = Some coll'.
Proof.
  intros op. subst op. revert coll'.
  induction coll as [|d t IH]; intros coll'; [done|].
  cbn [update_first op_filter op_set].
  destruct (matches (k, get rec k) d) eqn:Hm.
  - intros [= <-]. cbn [update_first op_filter op_set].
    rewrite (matches_after_set k rec d Hm).
    by rewrite (assoc_L (∪)), (idemp_L (∪)).
  - destruct (update_first _ t) as [t'|] eqn:Ht; [|done].
    intros [= <-]. cbn [update_first op_filter op_set].
    rewrite Hm. by rewrite (IH t' eq_refl).
Qed.

Lemma update_first_inserted (k : string) (rec : Doc) (up : bool) (coll : list Doc) :
  let op := {| op_filter := (k, get rec k); op_set := rec; op_upsert := up |} in
  update_first op coll = None ->
  update_first op (coll ++ [rec ∪ {[ k := get rec k ]}])
  = Some (coll ++ [rec ∪ {[ k := get rec k ]}]).
Proof.
  intros op. subst op. induction coll as [|d t IH].
  - intros _. cbn [update_first app op_filter op_set].
    assert (Hm : matches (k, get rec k) (rec ∪ {[ k := get rec k ]}) = true).
    { apply matches_after_set. apply bool_decide_eq_true. simpl.
      unfold get at 1. by rewrite lookup_singleton_eq. }
    rewrite Hm. by rewrite (assoc_L (∪)), (idemp_L (∪)).
  - cbn [update_first app op_filter op_set].
    destruct (matches (k, get rec k) d); [done|].
    destruct (update_first _ t); [done|]. intros _. by rewrite IH.
Qed.

(** Replaying an upsert changes nothing. *)
Lemma apply_op_replay (k : string) (rec : Doc) (coll : list Doc) :
  let op := {| op_filter := (k, get rec k); op_set := rec; op_upsert := true |} in
  apply_op (apply_op coll op) op = apply_op coll op.
Proof.
  intros op. subst op. unfold apply_op at 2 3.
  destruct (update_first _ coll) as [coll'|] eqn:Hu.
  - unfold apply_op. by rewrite (update_first_fixed k rec true coll coll' Hu).
  - cbn [op_upsert op_filter op_set fst snd]. unfold apply_op.
    by rewrite (update_first_inserted k rec true coll Hu).
Qed.

(** After an upsert some document holds every field that was set. *)
Lemma apply_op_contains (coll : list Doc) (op : UpdateOne) :
  op_upsert op = true -> exists d, d ∈ apply_op coll op /\ op_set op ⊆ d.
Proof.
  intros Hup. unfold apply_op. rewrite Hup.
  destruct (update_first op coll) as [coll'|] eqn:Hu.
  - revert coll' Hu. induction coll as [|d t IH]; intros coll'; simpl; [done|].
    destruct (matches (op_filter op) d).
    + intros [= <-]. exists (op_set op ∪ d). split; [apply list_elem_of_here|].
      apply map_union_subseteq_l.
    + destruct (update_first op t) as [t'|]; [|done]. intros [= <-].
      destruct (IH t' eq_refl) as (x & Hin & Hsub). exists x.
      split; [by apply list_elem_of_further|done].
  - eexists. split; [apply elem_of_app; right; apply list_elem_of_here|].
    apply map_union_subseteq_l.
Qed.

(** A document the filter does not match is left as it is. *)
Lemma apply_op_keeps (coll : list Doc) (op : UpdateOne) (d : Doc) :
  d ∈ coll -> matches (op_filter op) d = false -> d ∈ apply_op coll op.
Proof.
  intros Hin Hm. unfold apply_op.
  destruct (update_first op coll) as [coll'|] eqn:Hu.
  - revert coll' Hu. induction coll as [|x t IH]; intros coll'; simpl; [done|].
    destruct (matches (op_filter op) x) eqn:Hx.
    + intros [= <-]. apply elem_of_cons in Hin as [->|Hin]; [congruence|].
      by apply list_elem_of_further.
    + destruct (update_first op t) as [t'|]; [|done]. intros [= <-].
      apply elem_of_cons in Hin as [->|Hin]; [apply list_elem_of_here|].
      apply list_elem_of_further. by apply IH.
  - destruct (op_upsert op); [|done]. apply elem_of_app. by left.
Qed.

End UpsertFacts.

(** ** The batch loop of the reconciliation run *)

Section ImportFacts.
Import mongo import_fallback.

Lemma round_trip_docs (s : Server) : docs (round_trip s).2 = docs s.
Proof. done. Qed.

Lemma round_trip_calls (s : Server) : calls (round_trip s).2 = S (calls s).
Proof. done. Qed.

Lemma round_trip_applied (s : Server) : applied (round_trip s).2 = applied s.
Proof. done. Qed.

(** Slices taken at the multiples of the step tile a prefix of the list. *)
Lemma slices_concat {A} (b k : nat) (l : list A) :
  concat (map (fun i => take b (drop i l)) (map (fun j => j * b) (seq 0 k)))
  = take (k * b) l.
Proof.
  induction k as [|k IH]; [done|].
  rewrite seq_S, !map_app, concat_app, IH. simpl. rewrite app_nil_r.
  rewrite take_take_drop. f_equal. lia.
Qed.

Lemma div_up_covers (n b : nat) : (0 < b -> n <= (n + b - 1) / b * b)%nat.
Proof.
  intros Hb.
  pose proof (Nat.div_mod_eq (n + b - 1) b) as H.
  pose proof (Nat.mod_upper_bound (n + b - 1) b) as H'. nia.
Qed.

(** For a positive batch size the batches are non-empty, hold at most
    [BATCH_SIZE] records each, and together are the records, in order. *)
Lemma batches_spec {A} (B : Z) (records : list A) :
  (0 < B)%Z ->
  exists bs,
    batches B records = Some bs
    /\ concat bs = records
    /\ Forall (fun batch => (0 < length batch <= Z.to_nat B)%nat) bs
    /\ length bs
       = ((length records + Z.to_nat B - 1) / Z.to_nat B)%nat.
Proof.
  intros HB. unfold batches.
  destruct (B =? 0)%Z eqn:E0; [apply Z.eqb_eq in E0; lia|].
  destruct (B <? 0)%Z eqn:E1; [apply Z.ltb_lt in E1; lia|].
  eexists. split; [done|]. unfold range_step.
  assert (Hb : (0 < Z.to_nat B)%nat) by lia.
  split; [|split].
  - rewrite slices_concat. apply take_ge. by apply div_up_covers.
  - apply Forall_forall. intros batch Hin.
    apply list_elem_of_fmap in Hin as (i & -> & Hi).
    apply list_elem_of_fmap in Hi as (j & -> & Hj).
    apply list_elem_of_In, in_seq in Hj.
    rewrite length_take, length_drop.
    pose proof (Nat.div_mod_eq (length records + Z.to_nat B - 1) (Z.to_nat B)) as H.
    pose proof (Nat.mod_upper_bound (length records + Z.to_nat B - 1) (Z.to_nat B)) as H'.
    nia.
  - by rewrite !length_map, length_seq.
Qed.

(** Slicing commutes with tagging every record as a dict. *)
Lemma batches_objects (B : Z) (records : list Doc) :
  batches B (map JObject records)
  = option_map (map (map JObject)) (batches B records).
Proof.
  unfold batches. destruct (B =? 0)%Z; [done|]. destruct (B <? 0)%Z; [done|].
  simpl. f_equal. rewrite length_map. rewrite map_map.
  apply map_ext. intros i.
  change (map JObject) with (fmap (M:=list) JObject).
  by rewrite fmap_take, fmap_drop.
Qed.

Lemma batch_ops_objects (batch : list Doc) :
  batch_ops (map JObject batch) = Some (map import_op batch).
Proof.
  unfold batch_ops. induction batch as [|d t IH]; [done|].
  simpl. simpl in IH. by rewrite IH.
Qed.

Lemma batch_ops_length (batch : list Parsed) (ops : list UpdateOne) :
  batch_ops batch = Some ops -> length ops = length batch.
Proof.
  unfold batch_ops. intros H. apply length_mapM in H. done.
Qed.

(** A batch loop over dicts that ends without an exception has sent, for
    each batch in turn, one [bulk_write] with the operations of its records
    in order. *)
Lemma write_batches_ok (bs : list (list Doc)) (s s' : Server) :
  Forall (fun batch => (0 < length batch)%nat) bs ->
  write_batches (map (map JObject) bs) s = (true, s') ->
  docs s' = fold_left apply_op (map import_op (concat bs)) (docs s)
  /\ applied s' = applied s ++ map (map import_op) bs
  /\ calls s' = (calls s + length bs)%nat.
Proof.
  revert s. induction bs as [|batch t IH]; intros s Hne; simpl.
  - intros [= <-]. rewrite app_nil_r. split; [done|]. split; [done|lia].
  - apply Forall_cons in Hne as [Hb Ht].
    rewrite batch_ops_objects, map_app, fold_left_app.
    destruct batch as [|d batch]; [simpl in Hb; lia|]. simpl.
    unfold bulk_write.
    destruct (round_trip s) as [ok s1] eqn:Hrt.
    destruct ok; [|done].
    pose proof (round_trip_docs s) as D. rewrite Hrt in D. simpl in D.
    pose proof (round_trip_calls s) as Cs. rewrite Hrt in Cs. simpl in Cs.
    pose proof (round_trip_applied s) as As. rewrite Hrt in As. simpl in As.
    intros H. apply (IH _ Ht) in H as (Hd & Ha & Hc). simpl in Hd, Ha, Hc.
    rewrite Hd, Ha, Hc, D, As, Cs. rewrite <- app_assoc. simpl.
    split; [done|]. split; [done|lia].
Qed.

(** [try_import] that returns, for a positive batch size and records that
    are dicts: the index call, then one [bulk_write] per batch. *)
Lemma try_import_ok (C : Config) (records : list Doc) (s s' : Server) :
  (0 < BATCH_SIZE C)%Z ->
  try_import C (map JObject records) s = (true, s') ->
  docs s' = fold_left apply_op (map import_op records) (docs s)
  /\ exists bs,
       batches (BATCH_SIZE C) records = Some bs
       /\ applied s' = applied s ++ map (map import_op) bs
       /\ calls s' = (calls s + 1 + length bs)%nat.
Proof.
  intros HB. unfold try_import, create_index.
  destruct (round_trip s) as [ok s2] eqn:H2. destruct ok; [|done].
  rewrite batches_objects.
  destruct (batches_spec (BATCH_SIZE C) records HB) as (bs & -> & Hc & Hall & _).
  simpl. intros H. apply write_batches_ok in H as (Hd & Ha & Hn).
  2:{ eapply Forall_impl; [exact Hall|]. simpl. intros; lia. }
  pose proof (round_trip_docs s) as D2. rewrite H2 in D2.
  pose proof (round_trip_calls s) as C2. rewrite H2 in C2.
  pose proof (round_trip_applied s) as A2. rewrite H2 in A2.
  simpl in *. split; [by rewrite Hd, Hc, D2|].
  exists bs. split; [done|]. split; [by rewrite Ha, A2|].
  rewrite Hn, C2. lia.
Qed.

(** A successful attempt on a tier, for a positive batch size and records
    that are dicts, makes the ping, the index call and one [bulk_write] per
    batch, and leaves the collection as the upserts of all the records make
    it. *)
Lemma attempt_ok (C : Config) (records : list Doc) (s s' : Server) :
  (0 < BATCH_SIZE C)%Z ->
  attempt C (map JObject records) s = (true, s') ->
  docs s' = fold_left apply_op (map import_op records) (docs s)
  /\ exists bs,
       batches (BATCH_SIZE C) records = Some bs
       /\ applied s' = applied s ++ map (map import_op) bs
       /\ calls s' = (calls s + 2 + length bs)%nat.
Proof.
  intros HB. unfold attempt, ping.
  destruct (round_trip s) as [ok s1] eqn:H1. destruct ok; [|done].
  intros H. apply (try_import_ok C records _ _ HB) in H as (Hd & bs & Hb & Ha & Hn).
  pose proof (round_trip_docs s) as D1. rewrite H1 in D1.
  pose proof (round_trip_calls s) as C1. rewrite H1 in C1.
  pose proof (round_trip_applied s) as A1. rewrite H1 in A1.
  simpl in *. split; [by rewrite Hd, D1|].
  exists bs. split; [done|]. split; [by rewrite Ha, A1|].
  rewrite Hn, C1. lia.
Qed.

Lemma key_url (rec : Doc) :
  truthy (get rec "url") = true -> key rec = ("url", get rec "url").
Proof. unfold key. by intros ->. Qed.

Lemma url_lookup (rec : Doc) :
  truthy (get rec "url") = true -> rec !! "url" = Some (get rec "url").
Proof. unfold get. by destruct (rec !! "url"). Qed.

(** When the records carry non-empty, pairwise different URLs, the
    collection holds each of them after their upserts, and keeps every
    document that has none of their URLs. *)
Lemma fold_upserts_contain (records : list Doc) (coll : list Doc) :
  (forall r, r ∈ records -> truthy (get r "url") = true) ->
  NoDup (map (fun r => get r "url") records) ->
  (forall r, r ∈ records ->
     exists d, d ∈ fold_left apply_op (map import_op records) coll /\ r ⊆ d)
  /\ (forall d, d ∈ coll ->
        (forall r, r ∈ records -> get d "url" <> get r "url") ->
        d ∈ fold_left apply_op (map import_op records) coll).
Proof.
  revert coll. induction records as [|r t IH]; intros coll Hurl Hnd.
  { split; [by intros r ?%elem_of_nil|done]. }
  apply NoDup_cons in Hnd as [Hr Hnd]. simpl.
  assert (Ht : forall r', r' ∈ t -> truthy (get r' "url") = true)
    by (intros; apply Hurl; by apply list_elem_of_further).
  assert (Hkeep : forall d, d ∈ coll -> get d "url" <> get r "url" ->
                            d ∈ apply_op coll (import_op r)).
  { intros d Hin Hne. apply apply_op_keeps; [done|].
    unfold import_op. simpl. rewrite key_url by apply Hurl, list_elem_of_here.
    by apply bool_decide_eq_false. }
  destruct (IH (apply_op coll (import_op r)) Ht Hnd) as [IH1 IH2].
  split.
  - intros r' [->|Hin]%elem_of_cons; [|by apply IH1].
    destruct (apply_op_contains coll (import_op r) eq_refl) as (d & Hd & Hsub).
    exists d. split; [|done]. apply IH2; [done|].
    assert (Hd_url : get d "url" = get r "url").
    { unfold get at 1.
      by rewrite (lookup_weaken _ _ _ _
                    (url_lookup r (Hurl r (list_elem_of_here _ _))) Hsub). }
    intros r' Hin Heq. apply Hr. apply list_elem_of_fmap. exists r'.
    split; [|done]. by rewrite <- Hd_url.
  - intros d Hin Hne. apply IH2.
    + apply Hkeep; [done|]. apply Hne, list_elem_of_here.
    + intros r' Hr'. by apply Hne, list_elem_of_further.
Qed.

End ImportFacts.

(** ** The reconciliation run *)

Section ReconcileFacts.
Import mongo import_fallback.
Context (J : Json) (C : Config).

(** A run that reports an import read a non-empty list of records, made a
    successful attempt on the tier it names, and renamed the log. *)
Lemma main_imported (w w' : World) (rep : Report) (t : Tier) :
  main J C w = (w', rep) -> outcome rep = ImportedTo t ->
  exists records,
    load_fallback J w = Some records /\ records <> []
    /\ attempt C records (server_of t w) = (true, server_of t w')
    /\ FALLBACK_PATH w' = None
    /\ imported_path w' = FALLBACK_PATH w.
Proof.
  unfold main, try_local.
  destruct (load_fallback J w) as [[|r records]|] eqn:Hl;
    [by intros [= <- <-]| |by intros [= <- <-]].
  destruct (py.truthy (MONGO_URI C)).
  - destruct (attempt C (r :: records) (primary w)) as [[] p'] eqn:Hp.
    + intros [= <- <-] [= <-]. exists (r :: records). by repeat split.
    + destruct (attempt C (r :: records) (local w)) as [[] l'] eqn:Hloc;
        intros [= <- <-]; [|done].
      intros [= <-]. exists (r :: records). by repeat split.
  - destruct (attempt C (r :: records) (local w)) as [[] l'] eqn:Hloc;
      intros [= <- <-]; [|done].
    intros [= <-]. exists (r :: records). by repeat split.
Qed.

(** Without a log file a run reads nothing and changes nothing. *)
Lemma main_without_log (w : World) :
  FALLBACK_PATH w = None ->
  main J C w = (w, {| outcome := NothingToImport; attempts := [] |}).
Proof. intros H. unfold main, load_fallback. by rewrite H. Qed.

(** A non-blank line that does not decode makes [load_fallback] raise. *)
Lemma load_fallback_raises (w : World) (text line : string) :
  FALLBACK_PATH w = Some text -> line ∈ py.splitlines text ->
  py.truthy (py.strip line) = true -> loads J line = None ->
  load_fallback J w = None.
Proof.
  intros Hf Hin Hnb Hbad. unfold load_fallback, lines_of. rewrite Hf.
  destruct (mapM _ _) as [recs|] eqn:Hm; [|done].
  exfalso. apply mapM_Some in Hm.
  assert (Hin' : line ∈ List.filter (fun l => py.truthy (py.strip l))
                          (py.splitlines text)).
  { apply list_elem_of_In, filter_In. split; [by apply list_elem_of_In|done]. }
  apply list_elem_of_lookup_1 in Hin' as (i & Hi).
  destruct (Forall2_lookup_l _ _ _ _ _ Hm Hi) as (y & _ & Hy).
  congruence.
Qed.

End ReconcileFacts.

(** *** C3: the durability round trip *)

(** C3 (the claim fails as stated). A log holding two records with the same
    URL and different titles is reconciled with success on the primary
    tier and renamed, and the first record is in neither store: its upsert
    was overwritten by the second one. *)
Lemma C3_same_url_record_overwritten :
  exists w' rep,
    import_fallback.main flat_json.codec examples.import_config
      (examples.pending [examples.rec_rome; examples.rec_roma]
         examples.reliable examples.reliable) = (w', rep)
    /\ import_fallback.load_fallback flat_json.codec
         (examples.pending [examples.rec_rome; examples.rec_roma]
            examples.reliable examples.reliable)
       = Some [mongo.JObject examples.rec_rome; mongo.JObject examples.rec_roma]
    /\ import_fallback.outcome rep
       = import_fallback.ImportedTo import_fallback.Primary
    /\ import_fallback.FALLBACK_PATH w' = None
    /\ ~ exists d,
          (d ∈ mongo.docs (import_fallback.primary w')
           \/ d ∈ mongo.docs (import_fallback.local w'))
          /\ examples.rec_rome ⊆ d.
Proof.
  eexists _, _. split; [vm_compute; reflexivity|].
  split; [vm_compute; reflexivity|]. split; [reflexivity|].
  split; [reflexivity|].
  intros (d & [Hin|Hin] & Hsub); simpl in Hin.
  - apply list_elem_of_singleton in Hin. subst d.
    assert (Ht : examples.rec_rome !! "title" = Some (mongo.VStr "Rome"))
      by (vm_compute; reflexivity).
    pose proof (lookup_weaken _ _ _ _ Ht Hsub) as H.
    vm_compute in H. discriminate.
  - by apply elem_of_nil in Hin.
Qed.

(** C3 (amended). Take a log whose records carry non-empty, pairwise
    different URLs, and a positive batch size. A run that reports an import
    to a tier leaves in that tier's collection, for every record of the
    log, a document holding all its fields; the log file is gone and its
    content is under the imported name. A further run finds no log, reads
    nothing and changes nothing: no server is contacted. *)
Theorem C3_reconcile_round_trip (J : mongo.Json) (C : import_fallback.Config)
    (w w' : import_fallback.World) (rep : import_fallback.Report)
    (t : import_fallback.Tier) (records : list (gmap string mongo.Value)) :
  (0 < import_fallback.BATCH_SIZE C)%Z ->
  import_fallback.load_fallback J w = Some (map mongo.JObject records) ->
  (forall r, r ∈ records -> mongo.truthy (mongo.get r "url") = true) ->
  NoDup (map (fun r => mongo.get r "url") records) ->
  import_fallback.main J C w = (w', rep) ->
  import_fallback.outcome rep = import_fallback.ImportedTo t ->
  (forall r, r ∈ records ->
     exists d, d ∈ mongo.docs (import_fallback.server_of t w') /\ r ⊆ d)
  /\ import_fallback.FALLBACK_PATH w' = None
  /\ import_fallback.imported_path w' = import_fallback.FALLBACK_PATH w
  /\ import_fallback.main J C w'
     = (w', {| import_fallback.outcome := import_fallback.NothingToImport;
               import_fallback.attempts := [] |}).
Proof.
  intros HB Hload Hurl Hnd Hmain Hout.
  destruct (main_imported J C w w' rep t Hmain Hout)
    as (recs & Hload' & _ & Hatt & Hgone & Hren).
  rewrite Hload in Hload'. injection Hload' as <-.
  apply (attempt_ok C records _ _ HB) in Hatt as [Hatt _].
  split.
  - intros r Hr. rewrite Hatt.
    by apply (fold_upserts_contain records _ Hurl Hnd).
  - repeat split; try done. by apply main_without_log.
Qed.

Lemma C3_reconcile_round_trip_witness :
  exists d,
    d ∈ mongo.docs
          (import_fallback.local
             (import_fallback.main flat_json.codec examples.import_config
                (examples.pending [examples.rec_rome; examples.rec_athens]
                   examples.fails_once examples.reliable)).1)
    /\ examples.rec_athens ⊆ d.
Proof.
  pose (run := import_fallback.main flat_json.codec examples.import_config
                (examples.pending [examples.rec_rome; examples.rec_athens]
                   examples.fails_once examples.reliable)).
  destruct (C3_reconcile_round_trip flat_json.codec examples.import_config
              (examples.pending [examples.rec_rome; examples.rec_athens]
                 examples.fails_once examples.reliable)
              run.1 run.2 import_fallback.Local
              [examples.rec_rome; examples.rec_athens]) as (H & _).
  - reflexivity.
  - vm_compute. reflexivity.
  - intros r Hr. apply elem_of_cons in Hr as [->|Hr]; [reflexivity|].
    apply list_elem_of_singleton in Hr as ->. reflexivity.
  - apply (bool_decide_unpack _). vm_compute. exact I.
  - apply surjective_pairing.
  - vm_compute. reflexivity.
  - apply H. apply list_elem_of_further, list_elem_of_here.
Defined.

(** *** C4: writing the fallback log *)

Section DegradedFacts.
Import mongo store_to_db.

(** A run of [upsert_to_mongo] that ends without an exception made one
    round trip per row, each an [update_one] with the row's operation, in
    order. *)
Lemma upsert_to_mongo_ok (rows : list Doc) (s s' : Server) :
  upsert_to_mongo rows s = (true, s') ->
  calls s' = (calls s + length rows)%nat
  /\ docs s' = fold_left apply_op (map upsert_op rows) (docs s)
  /\ applied s' = applied s ++ map (fun r => [upsert_op r]) rows.
Proof.
  revert s. induction rows as [|r t IH]; intros s; simpl.
  - intros [= <-]. rewrite app_nil_r. split; [lia|done].
  - unfold update_one, bulk_write.
    destruct (round_trip s) as [[] s1] eqn:Hrt; [|done].
    intros H. apply IH in H as (Hc & Hd & Ha). rewrite Hc, Hd, Ha. simpl.
    pose proof (round_trip_calls s) as Hcalls.
    pose proof (round_trip_docs s) as Hdocs.
    pose proof (round_trip_applied s) as Happ.
    rewrite Hrt in Hcalls, Hdocs, Happ. simpl in *.
    rewrite Hcalls, Hdocs, Happ, <- app_assoc.
    split; [lia|done].
Qed.

End DegradedFacts.

(** A run that ends Degraded has written the fallback file. *)
Lemma degraded_fallback (J : mongo.Json) (uri : option string)
    (rows : list (gmap string mongo.Value)) (w : store_to_db.World) :
  (store_to_db.main J uri rows w).2 = store_to_db.Degraded ->
  store_to_db.FALLBACK (store_to_db.main J uri rows w).1
  = Some (py.write_lines (map (mongo.dumps J) rows)).
Proof.
  unfold store_to_db.main. destruct uri; [|done]. destruct rows as [|r t]; [done|].
  destruct (mongo.ping (store_to_db.server w)) as [[] s1]; [|done].
  by destruct (store_to_db.upsert_to_mongo (r :: t) s1) as [[] s2].
Qed.

(** C4 (the claim fails as stated). An ingestion run that cannot reach the
    server, started next to a fallback file from an earlier run, ends
    Degraded with a file that holds the new record only: the earlier line
    is gone. *)
Lemma C4_earlier_lines_lost :
  exists w',
    store_to_db.main flat_json.codec (Some "mongodb+srv://cluster0.example.mongodb.net")
      [examples.rec_rome] examples.earlier_log = (w', store_to_db.Degraded)
    /\ store_to_db.FALLBACK examples.earlier_log
       = Some (py.write_lines [flat_json.dumps examples.rec_athens])
    /\ store_to_db.FALLBACK w'
       = Some (py.write_lines [flat_json.dumps examples.rec_rome])
    /\ flat_json.dumps examples.rec_athens
       <> flat_json.dumps examples.rec_rome.
Proof.
  eexists. split; [vm_compute; reflexivity|]. split; [reflexivity|].
  split; [reflexivity|]. vm_compute. discriminate.
Qed.

(** C4 (amended). A run that ends Degraded leaves a fallback file holding
    exactly one JSON line per pending record, in order, whatever the file
    held before; any other run leaves the file as it was. *)
Theorem C4_fallback_replaced (J : mongo.Json) (uri : option string)
    (rows : list (gmap string mongo.Value)) (w : store_to_db.World) :
  store_to_db.FALLBACK (store_to_db.main J uri rows w).1
  = match (store_to_db.main J uri rows w).2 with
    | store_to_db.Degraded => Some (py.write_lines (map (mongo.dumps J) rows))
    | _ => store_to_db.FALLBACK w
    end.
Proof.
  unfold store_to_db.main. destruct uri; [|done]. destruct rows as [|r t]; [done|].
  destruct (mongo.ping (store_to_db.server w)) as [[] s1]; [|done].
  by destruct (store_to_db.upsert_to_mongo (r :: t) s1) as [[] s2].
Qed.

(** *** C5: malformed lines in the log *)

(** C5 (the claim fails as stated). With a malformed second line between two
    well-formed ones, the reconciliation run ends with the exception of
    [json.loads]: nothing is reconciled, no server is contacted, no count
    is reported. *)
Lemma C5_malformed_line_aborts :
  py.splitlines (default "" (import_fallback.FALLBACK_PATH examples.corrupt_log))
  = [flat_json.dumps examples.rec_rome; "{bad"; flat_json.dumps examples.rec_athens]
  /\ flat_json.loads_any "{bad" = None
  /\ flat_json.loads_any (flat_json.dumps examples.rec_athens)
     = Some (mongo.JObject examples.rec_athens)
  /\ import_fallback.main flat_json.codec examples.import_config
       examples.corrupt_log
     = (examples.corrupt_log,
        {| import_fallback.outcome := import_fallback.Crashed;
           import_fallback.attempts := [] |}).
Proof. repeat split; vm_compute; reflexivity. Qed.

(** C5 (amended). The log is read as the lines [splitlines()] cuts its
    text into; the lines that [strip()] empties are skipped, and when every
    other line decodes the run loads their values in order. A line that is
    not blank and that [json.loads] rejects makes [load_fallback] raise, and
    the run ends there: no tier is tried and the log and the servers are as
    before. *)
Theorem C5_malformed_line_raises (J : mongo.Json) (C : import_fallback.Config)
    (w : import_fallback.World) (text : string) :
  import_fallback.FALLBACK_PATH w = Some text ->
  (forall records,
     Forall2 (fun line r => mongo.loads J line = Some r)
       (List.filter (fun line => py.truthy (py.strip line)) (py.splitlines text))
       records ->
     import_fallback.load_fallback J w = Some records)
  /\ (forall line,
        line ∈ py.splitlines text -> py.truthy (py.strip line) = true ->
        mongo.loads J line = None ->
        import_fallback.main J C w
        = (w, {| import_fallback.outcome := import_fallback.Crashed;
                 import_fallback.attempts := [] |})).
Proof.
  intros Hf. split.
  - intros records H. unfold import_fallback.load_fallback. rewrite Hf.
    by apply mapM_Some.
  - intros line Hin Hnb Hbad. unfold import_fallback.main.
    by rewrite (load_fallback_raises J w text line Hf Hin Hnb Hbad).
Qed.

Lemma C5_malformed_line_raises_witness :
  import_fallback.main flat_json.codec examples.import_config examples.corrupt_log
  = (examples.corrupt_log,
     {| import_fallback.outcome := import_fallback.Crashed;
        import_fallback.attempts := [] |}).
Proof.
  destruct (C5_malformed_line_raises flat_json.codec examples.import_config
              examples.corrupt_log _ eq_refl) as [_ H].
  apply (H "{bad").
  - apply (bool_decide_unpack _). vm_compute. exact I.
  - reflexivity.
  - reflexivity.
Defined.

(** *** C8: a failed tier is not tried again *)

Section AttemptFacts.
Import mongo import_fallback.









Context (J : Json) (C : Config).

(** An attempt whose first round trip fails makes that call and no other. *)
Lemma attempt_fails (recs : list Parsed) (s : Server) :
  hd false (faults s) = true -> attempt C recs s = (false, (round_trip s).2).
Proof. intros Hs. unfold attempt, ping, round_trip. by rewrite Hs. Qed.




End AttemptFacts.




(** *** C9: the upsert each path builds *)

(** C9 (the claim fails as stated). For a row whose [url] is empty,
    [upsert_to_mongo] filters on the empty URL, where [try_import] filters
    on the title; and it sends its three rows in three calls, not in a
    batch. *)
Lemma C9_ingestion_keys_by_url_only :
  mongo.op_filter (store_to_db.upsert_op examples.rec_no_url)
  = ("url", mongo.VStr "")
  /\ mongo.op_filter (import_fallback.import_op examples.rec_no_url)
     = ("title", mongo.VStr "Sparta")
  /\ mongo.calls
       (store_to_db.upsert_to_mongo
          [examples.rec_rome; examples.rec_athens; examples.rec_no_url]
          examples.reliable).2 = 3%nat
  /\ mongo.applied
       (store_to_db.upsert_to_mongo
          [examples.rec_rome; examples.rec_athens; examples.rec_no_url]
          examples.reliable).2
     = [[store_to_db.upsert_op examples.rec_rome];
        [store_to_db.upsert_op examples.rec_athens];
        [store_to_db.upsert_op examples.rec_no_url]].
Proof. repeat split; vm_compute; reflexivity. Qed.

(** C9 (amended). [try_import] that returns, for a positive [BATCH_SIZE]
    and records that are dicts, has sent to the server, after the index
    call, one [bulk_write] per batch, in order: the batches are non-empty,
    hold at most [BATCH_SIZE] records and together are the records in order,
    and the operations of a batch are, record by record, an upsert that sets
    the record's fields and filters on its [url] when that is present and
    non-empty and on its [title] otherwise. [upsert_to_mongo] that returns
    has sent one [update_one] per row, in order, an upsert that sets the
    row's fields and always filters on [url], and the collection is as these
    calls make it one after the other. On both paths applying a record's
    operation a second time changes nothing. *)
Theorem C9_upsert_operations (C : import_fallback.Config)
    (rec : gmap string mongo.Value)
    (records : list (gmap string mongo.Value))
    (coll : list (gmap string mongo.Value)) (s s' : mongo.Server) :
  (mongo.op_upsert (import_fallback.import_op rec) = true
   /\ mongo.op_set (import_fallback.import_op rec) = rec
   /\ mongo.op_filter (import_fallback.import_op rec)
      = if mongo.truthy (mongo.get rec "url")
        then ("url", mongo.get rec "url")
        else ("title", mongo.get rec "title"))
  /\ ((0 < import_fallback.BATCH_SIZE C)%Z ->
      import_fallback.try_import C (map mongo.JObject records) s = (true, s') ->
      exists bs,
        concat bs = records
        /\ Forall (fun batch =>
                     (0 < length batch <= Z.to_nat (import_fallback.BATCH_SIZE C))%nat) bs
        /\ mongo.applied s'
           = mongo.applied s ++ map (map import_fallback.import_op) bs
        /\ mongo.calls s' = (mongo.calls s + 1 + length bs)%nat)
  /\ (mongo.op_upsert (store_to_db.upsert_op rec) = true
      /\ mongo.op_set (store_to_db.upsert_op rec) = rec
      /\ mongo.op_filter (store_to_db.upsert_op rec) = ("url", mongo.get rec "url"))
  /\ (store_to_db.upsert_to_mongo records s = (true, s') ->
      mongo.applied s'
      = mongo.applied s ++ map (fun r => [store_to_db.upsert_op r]) records
      /\ mongo.calls s' = (mongo.calls s + length records)%nat
      /\ mongo.docs s'
         = fold_left mongo.apply_op (map store_to_db.upsert_op records) (mongo.docs s))
  /\ mongo.apply_op (mongo.apply_op coll (import_fallback.import_op rec))
       (import_fallback.import_op rec)
     = mongo.apply_op coll (import_fallback.import_op rec)
  /\ mongo.apply_op (mongo.apply_op coll (store_to_db.upsert_op rec))
       (store_to_db.upsert_op rec)
     = mongo.apply_op coll (store_to_db.upsert_op rec).
Proof.
  split; [|split; [|split; [|split; [|split]]]].
  - done.
  - intros HB Hrun.
    destruct (try_import_ok C records s s' HB Hrun) as (Hd & bs & Hb & Ha & Hn).
    destruct (batches_spec (import_fallback.BATCH_SIZE C) records HB)
      as (bs' & Hb' & Hc & Hall & _).
    rewrite Hb in Hb'. injection Hb' as <-. exists bs. by repeat split.
  - done.
  - intros Hrun. destruct (upsert_to_mongo_ok records s s' Hrun) as (Hc & Hd & Ha).
    by repeat split.
  - unfold import_fallback.import_op, import_fallback.key.
    destruct (mongo.truthy (mongo.get rec "url")); apply apply_op_replay.
  - apply apply_op_replay.
Qed.

Lemma C9_upsert_operations_witness :
  exists bs,
    concat bs = [examples.rec_rome; examples.rec_athens; examples.rec_no_url]
    /\ mongo.applied
         (import_fallback.try_import
            {| import_fallback.MONGO_URI := ""; import_fallback.BATCH_SIZE := 2 |}
            (map mongo.JObject
               [examples.rec_rome; examples.rec_athens; examples.rec_no_url])
            examples.reliable).2
       = map (map import_fallback.import_op) bs.
Proof.
  pose (C := {| import_fallback.MONGO_URI := "";
                import_fallback.BATCH_SIZE := 2 |}).
  pose (recs := [examples.rec_rome; examples.rec_athens; examples.rec_no_url]).
  pose (run := import_fallback.try_import C (map mongo.JObject recs)
                 examples.reliable).
  destruct (C9_upsert_operations C examples.rec_no_url recs [] examples.reliable
              run.2) as (_ & H & _).
  destruct H as (bs & Hc & _ & Ha & _).
  - reflexivity.
  - vm_compute. reflexivity.
  - exists bs. split; [exact Hc|exact Ha].
Defined.

(** * Further properties of the crawler *)

Set Warnings "-clear-no-such-hyp".

Section CrawlMore.
Import scraper_crawl.
Context (W : Web) (C : Config) (base_netloc : string).

Lemma rstrip_slash_truthy_links hrefs base links :
  extract_links_of W hrefs base = Some links ->
  (length links <= length hrefs)%nat
  /\ forall l, l ∈ links -> l <> "" /\ py.ends_with_slash l = false.
Proof.
  revert links. induction hrefs as [|h t IH]; intros links; simpl.
  { intros [= <-]. split; [done|]. by intros l ?%elem_of_nil. }
  destruct (normalize_url W (py.strip h) base) as [full|] eqn:Hn; [|done].
  destruct (extract_links_of W t base) as [rest|]; [|done].
  destruct (IH rest eq_refl) as [Hlen Hall].
  destruct full as [u|].
  - destruct (py.truthy u) eqn:Hu; intros [= <-]; simpl.
    + split; [lia|]. intros l [->|Hin]%elem_of_cons; [|by apply Hall].
      split; [by apply truthy_true|].
      unfold normalize_url in Hn. destruct (negb _); [done|].
      destruct (urljoin W base _); [|done]. injection Hn as <-.
      apply rstrip_slash_no_trailing.
    + split; [lia|done].
  - intros [= <-]. split; [lia|done].
Qed.

(** X1. Every link [extract_links] returns is a non-empty string that does
    not end in a slash, and it returns at most one link per anchor. *)
Theorem extract_links_clean html base links :
  extract_links W html base = Some links ->
  (length links <= length (a_hrefs (BeautifulSoup W html)))%nat
  /\ forall l, l ∈ links -> l <> "" /\ py.ends_with_slash l = false.
Proof. apply rstrip_slash_truthy_links. Qed.

(** The link loop keeps the queue it was given as a prefix, and appends
    only slash-stripped internal links that are not in the visited set. *)
Lemma enqueue_links_spec links vis queue :
  exists added,
    enqueue_links W base_netloc links vis queue = queue ++ added
    /\ forall x, x ∈ added ->
         (x ∉ vis)
         /\ exists link, link ∈ links /\ is_internal W link base_netloc = true
                         /\ x = py.rstrip_slash link.
Proof.
  revert queue. induction links as [|link t IH]; intros queue; simpl.
  { exists []. split; [by rewrite app_nil_r|]. by intros x ?%elem_of_nil. }
  destruct (is_internal W link base_netloc) eqn:Hi; simpl.
  - destruct (bool_decide (py.rstrip_slash link ∈ vis)) eqn:Hv.
    + destruct (IH queue) as (added & -> & Hadd). exists added. split; [done|].
      intros x Hx. destruct (Hadd x Hx) as (? & l & ? & ? & ?).
      split; [done|]. exists l. split; [by apply list_elem_of_further|done].
    + apply bool_decide_eq_false in Hv.
      destruct (IH (queue ++ [py.rstrip_slash link])) as (added & -> & Hadd).
      exists (py.rstrip_slash link :: added). split; [by rewrite <- app_assoc|].
      intros x [->|Hx]%elem_of_cons.
      * split; [done|]. exists link. split; [apply list_elem_of_here|done].
      * destruct (Hadd x Hx) as (? & l & ? & ? & ?).
        split; [done|]. exists l. split; [by apply list_elem_of_further|done].
  - destruct (IH queue) as (added & -> & Hadd). exists added. split; [done|].
    intros x Hx. destruct (Hadd x Hx) as (? & l & ? & ? & ?).
    split; [done|]. exists l. split; [by apply list_elem_of_further|done].
Qed.

(** The queue after an iteration. *)
Lemma body_queue s u rest :
  q s = u :: rest ->
  exists added,
    q (state_of (body W C base_netloc s)) = rest ++ added
    /\ forall x, x ∈ added ->
         exists link, is_internal W link base_netloc = true
                      /\ x = py.rstrip_slash link.
Proof.
  intros Hq. unfold body. rewrite Hq.
  assert (Hnil : exists added : list string, rest = rest ++ added
            /\ forall x, x ∈ added ->
                 exists link, is_internal W link base_netloc = true
                              /\ x = py.rstrip_slash link).
  { exists []. split; [by rewrite app_nil_r|]. by intros x ?%elem_of_nil. }
  destruct (bool_decide (u ∈ visited s)); [done|].
  destruct (fetch W u) as [html|]; [|done].
  destruct (negb (py.truthy html)); [done|].
  destruct (extract_links W html u) as [links|]; [|done].
  destruct (collect W html u (scraped_rows s) (articles s)) as [rows arts] eqn:Hc.
  assert (Hqueue : exists added,
            enqueue_links W base_netloc links ({[u]} ∪ visited s) rest
            = rest ++ added
            /\ forall x, x ∈ added ->
                 exists link, is_internal W link base_netloc = true
                              /\ x = py.rstrip_slash link).
  { destruct (enqueue_links_spec links ({[u]} ∪ visited s) rest)
      as (added & -> & Hadd).
    exists added. split; [done|]. intros x Hx.
    destruct (Hadd x Hx) as (_ & l & _ & ? & ?). by exists l. }
  destruct (negb (sleep_returns W C)); [done|].
  by destruct (periodic_flush rows (disk s)) as [rows' d] eqn:Hp.
Qed.

(** The batch and the file after an iteration, when [time.sleep] returns:
    the file is untouched and the batch, below ten rows, is as it was or one
    row longer; or the tenth row was collected, and the batch was appended
    to the file and emptied. *)
Lemma body_batch s u rest :
  sleep_returns W C = true ->
  q s = u :: rest -> (length (scraped_rows s) < 10)%nat ->
  (disk (state_of (body W C base_netloc s)) = disk s
   /\ (length (scraped_rows (state_of (body W C base_netloc s))) < 10)%nat)
  \/ (exists row,
        length (scraped_rows s) = 9%nat
        /\ scraped_rows (state_of (body W C base_netloc s)) = []
        /\ disk (state_of (body W C base_netloc s))
           = append_csv (scraped_rows s ++ [row]) (disk s)).
Proof.
  intros Hsleep Hq Hlen. unfold body. rewrite Hq.
  destruct (bool_decide (u ∈ visited s)); [by left|].
  destruct (fetch W u) as [html|]; [|by left].
  destruct (negb (py.truthy html)); [by left|].
  destruct (extract_links W html u) as [links|]; [|by left].
  destruct (collect W html u (scraped_rows s) (articles s)) as [rows arts] eqn:Hc.
  rewrite Hsleep. cbn [negb].
  assert (Hrows : rows = scraped_rows s \/ exists row, rows = scraped_rows s ++ [row]).
  { unfold collect in Hc. repeat case_match; injection Hc as <- <-; eauto. }
  unfold periodic_flush.
  destruct (10 <=? length rows)%nat eqn:Hten; cbn [state_of disk scraped_rows].
  - apply Nat.leb_le in Hten. right.
    destruct Hrows as [->|(row & ->)]; [lia|].
    rewrite length_app in Hten. simpl in Hten. exists row.
    split; [lia|done].
  - apply Nat.leb_gt in Hten. by left.
Qed.

(** X2. The crawl stays on its site: every URL in the queue, and every URL
    handed to the fetch tier, is the configured start URL or the
    slash-stripped form of a link that [is_internal] accepted. *)
Theorem crawl_stays_on_site d s :
  reaches W C base_netloc (init C d) s ->
  (forall u, u ∈ q s -> on_site W C base_netloc u)
  /\ (forall u, u ∈ fetch_log s -> on_site W C base_netloc u).
Proof.
  intros Hr. induction Hr as [|s2 o Hr [IHq IHf] Hc Hb].
  { split; [|by intros u ?%elem_of_nil].
    intros u ->%list_elem_of_singleton. by left. }
  subst o. apply loop_cond_true in Hc as ((u & rest & Hq) & _).
  destruct (body_queue s2 u rest Hq) as (added & Hq' & Hadd).
  assert (Hu : on_site W C base_netloc u)
    by (apply IHq; rewrite Hq; apply list_elem_of_here).
  split.
  - rewrite Hq'. intros x [Hx|Hx]%elem_of_app.
    + apply IHq. rewrite Hq. by apply list_elem_of_further.
    + right. by apply Hadd.
  - destruct (body_spec W C base_netloc s2 u rest Hq)
      as [[_ ->]|(_ & _ & _ & -> & _)]; [done|].
    intros x [Hx| ->%list_elem_of_singleton]%elem_of_app; [by apply IHf|done].
Qed.

(** Iterations made while the loop test holds are steps of the loop. *)
Lemma reaches_steps n s :
  forallb (fun k => loop_cond C (steps W C base_netloc k s)) (seq 0 n) = true ->
  reaches W C base_netloc s (steps W C base_netloc n s).
Proof.
  induction n as [|n IH]; [intros _; apply reaches_refl|].
  rewrite seq_S, forallb_app. intros [Hn Hlast]%andb_prop.
  simpl in Hlast. rewrite andb_true_r in Hlast.
  eapply reaches_step; [by apply IH|done|done].
Qed.

End CrawlMore.

Lemma crawl_stays_on_site_witness :
  scraper_crawl.on_site examples.home_web examples.default_config
    "www.worldhistory.org" "https://www.worldhistory.org".
Proof.
  destruct (crawl_stays_on_site examples.home_web examples.default_config
              "www.worldhistory.org" None
              (scraper_crawl.steps examples.home_web examples.default_config
                 "www.worldhistory.org" 2
                 (scraper_crawl.init examples.default_config None)))
    as [_ H].
  - apply reaches_steps. vm_compute. reflexivity.
  - apply H. apply (bool_decide_unpack _). vm_compute. exact I.
Defined.

Section CrawlCounters.
Import scraper_crawl.
Context (W : Web) (C : Config).

(** X3. The page counter counts the fetches: in every state of a run it
    equals the number of URLs handed to the fetch tier and the size of the
    visited set, the visited set is exactly the set of fetched URLs, and
    the counter never exceeds [MAX_PAGES_TO_VISIT] (or zero, when that is
    negative). *)
Theorem pages_visited_counts_fetches base_netloc d s :
  reaches W C base_netloc (init C d) s ->
  pages_visited s = length (fetch_log s)
  /\ visited s = list_to_set (fetch_log s)
  /\ size (visited s) = length (fetch_log s)
  /\ (Z.of_nat (pages_visited s) <= Z.max 0 (MAX_PAGES_TO_VISIT C))%Z.
Proof.
  intros Hr.
  assert (Hcore : pages_visited s = length (fetch_log s)
                  /\ visited s = list_to_set (fetch_log s)
                  /\ (Z.of_nat (pages_visited s) <= Z.max 0 (MAX_PAGES_TO_VISIT C))%Z).
  { induction Hr as [|s2 o Hr (IH1 & IH2 & IH3) Hc Hb].
    - simpl. split; [done|]. split; [done|lia].
    - subst o. apply loop_cond_true in Hc as ((u & rest & Hq) & _ & Hpv).
      destruct (body_spec W C base_netloc s2 u rest Hq)
        as [[_ ->]|(_ & -> & -> & -> & _)]; [done|].
      rewrite length_app, list_to_set_app_L, <- IH2. simpl.
      repeat split; [lia|set_solver|lia]. }
  destruct Hcore as (H1 & H2 & H3). repeat split; try done.
  rewrite H2. apply size_list_to_set.
  by apply (fetch_log_once_from_init W C base_netloc d s Hr).
Qed.

(** X4. With a non-negative delay the in-memory batch stays below ten rows
    through the run. An iteration leaves the output file untouched and the
    batch below ten, or it collected the tenth row: then the ten rows are
    appended to the file, in order, and the batch is emptied. *)
Theorem batch_below_ten base_netloc d s :
  sleep_returns W C = true ->
  reaches W C base_netloc (init C d) s ->
  (length (scraped_rows s) < 10)%nat
  /\ (loop_cond C s = true ->
      (disk (state_of (body W C base_netloc s)) = disk s
       /\ (length (scraped_rows (state_of (body W C base_netloc s))) < 10)%nat)
      \/ (exists row,
            length (scraped_rows s) = 9%nat
            /\ scraped_rows (state_of (body W C base_netloc s)) = []
            /\ disk (state_of (body W C base_netloc s))
               = append_csv (scraped_rows s ++ [row]) (disk s)
            /\ rows_on_disk (disk (state_of (body W C base_netloc s)))
               = rows_on_disk (disk s) ++ scraped_rows s ++ [row])).
Proof.
  intros Hsleep Hr.
  assert (Hinv : (length (scraped_rows s) < 10)%nat).
  { induction Hr as [|s2 o Hr IH Hc Hb]; [simpl; lia|].
    subst o. apply loop_cond_true in Hc as ((u & rest & Hq) & _).
    destruct (body_batch W C base_netloc s2 u rest Hsleep Hq IH)
      as [[_ H]|(row & _ & -> & _)]; [done|simpl; lia]. }
  split; [done|]. intros Hc.
  apply loop_cond_true in Hc as ((u & rest & Hq) & _).
  destruct (body_batch W C base_netloc s u rest Hsleep Hq Hinv)
    as [H|(row & H9 & Hrows & Hdisk)]; [by left|].
  right. exists row. repeat split; try done.
  rewrite Hdisk. unfold append_csv. by destruct (disk s).
Qed.

(** The rows a run adds: each is for a fetched, article-like URL, its key
    entered the article set, and no two of them share a key; and the article
    set is what it was, with the keys of these rows. *)
Lemma collected_rows base_netloc s0 s :
  reaches W C base_netloc s0 s ->
  exists new,
    output s = output s0 ++ new
    /\ (forall r, r ∈ new ->
          url r ∈ fetch_log s /\ looks_like_article (url r) = true
          /\ row_key r ∈ articles s /\ (row_key r ∉ articles s0)
          /\ exists html, fetch W (url r) = Some html /\ py.truthy html = true
                          /\ parse_article W html (url r) = Some r)
    /\ NoDup (map row_key new)
    /\ articles s = articles s0 ∪ list_to_set (map row_key new).
Proof.
  intros Hr. induction Hr as [|s2 o Hr IH Hc Hb].
  { exists []. split; [by rewrite app_nil_r|].
    split; [by intros r ?%elem_of_nil|]. split; [apply NoDup_nil_2|].
    simpl. set_solver. }
  destruct IH as (new & IH1 & IH2 & IH3 & IH4). subst o.
  pose proof (articles_bound W C base_netloc s0 s2 Hr) as [Hsub _].
  apply loop_cond_true in Hc as ((u & rest & Hq) & _).
  destruct (body_spec W C base_netloc s2 u rest Hq)
    as [[Hv ->]|(Hv & _ & _ & Hlog & Hcol)].
  { by exists new. }
  destruct Hcol as [[Ha Ho]|(row & html & Hfetch & Htr & Hlike & Hn & Hp & Ha & Ho)].
  - exists new. rewrite Ho, Ha, Hlog. split; [done|]. split; [|done].
    intros r Hin. destruct (IH2 r Hin) as (? & ? & ? & ? & ?).
    repeat split; try done. apply elem_of_app. by left.
  - pose proof (parse_article_url W html u row Hp) as Hurl.
    exists (new ++ [row]). rewrite Ho, Ha, Hlog, IH1, app_assoc.
    split; [done|]. split; [|split].
    + intros r [Hin| ->%list_elem_of_singleton]%elem_of_app.
      * destruct (IH2 r Hin) as (? & ? & ? & ? & ?).
        repeat split; try done; [apply elem_of_app; by left|set_solver].
      * unfold row_key. rewrite Hurl.
        split; [apply elem_of_app; right; apply list_elem_of_here|].
        split; [done|]. split; [set_solver|]. split; [set_solver|].
        by exists html.
    + rewrite map_app. apply NoDup_app. repeat split; [done| |apply NoDup_singleton].
      intros k Hk ->%list_elem_of_singleton.
      apply list_elem_of_fmap in Hk as (r & Hk & Hin).
      destruct (IH2 r Hin) as (_ & _ & Hart & _).
      apply Hn. unfold row_key in Hk. rewrite Hurl in Hk. by rewrite Hk.
    + rewrite IH4, map_app, list_to_set_app_L.
      assert (Hk : row_key row = py.rstrip_slash u)
        by (unfold row_key; by rewrite Hurl).
      simpl. rewrite Hk. set_solver.
Qed.

(** An article-like page that was fetched, parsed and whose links were
    read has its key in the article set from then on. *)
Lemma fetched_articles_kept base_netloc s0 s :
  reaches W C base_netloc s0 s ->
  forall u html row,
    u ∈ fetch_log s -> (u ∉ fetch_log s0) ->
    fetch W u = Some html -> py.truthy html = true ->
    extract_links W html u <> None ->
    looks_like_article u = true -> parse_article W html u = Some row ->
    py.rstrip_slash u ∈ articles s.
Proof.
  intros Hr. induction Hr as [|s2 o Hr IH Hc Hb]; [done|].
  subst o. intros u html row Hin Hnew Hf Hh Hl Ha Hp.
  apply loop_cond_true in Hc as ((x & rest & Hq) & _).
  assert (Hmono : articles s2 ⊆ articles (state_of (body W C base_netloc s2))).
  { destruct (body_spec W C base_netloc s2 x rest Hq)
      as [[_ ->]|(_ & _ & _ & _ & Hcol)]; [done|].
    destruct Hcol as [[-> _]|(? & ? & _ & _ & _ & _ & _ & -> & _)]; set_solver. }
  destruct (decide (u ∈ fetch_log s2)) as [Hold|Hfresh].
  { apply Hmono. by eapply IH. }
  assert (Hlog : fetch_log (state_of (body W C base_netloc s2))
                 = fetch_log s2 ++ [x] /\ (x ∉ visited s2)).
  { destruct (body_spec W C base_netloc s2 x rest Hq)
      as [[_ Hs]|(Hv & _ & _ & Hlog & _)]; [|done].
    rewrite Hs in Hin. done. }
  destruct Hlog as [Hlog Hv]. rewrite Hlog in Hin.
  apply elem_of_app in Hin as [Hin|Hux%list_elem_of_singleton]; [done|].
  subst x. unfold body. rewrite Hq, (bool_decide_eq_false_2 _ Hv), Hf, Hh. cbn [negb].
  destruct (extract_links W html u) as [links|]; [|done].
  unfold collect. rewrite Ha, Hp.
  destruct (bool_decide (py.rstrip_slash u ∈ articles s2)) eqn:Hart.
  - apply bool_decide_eq_true in Hart.
    destruct (negb (sleep_returns W C)); [done|].
    by destruct (periodic_flush _ _).
  - destruct (negb (sleep_returns W C)); [simpl; set_solver|].
    destruct (periodic_flush _ _). simpl. set_solver.
Qed.

(** X5. A run that ends without an exception leaves on disk the rows of
    the prior output, in place, followed by the rows it collected. Each of
    these is what [parse_article] returns for the non-empty page fetched at
    its article-like URL, and no two of them have the same slash-stripped
    URL. The article set holds the URLs seeded from the prior output and
    those of the collected rows, and nothing else; and every fetched
    article-like page that was parsed has its URL there: it was collected
    in this run or listed in the prior output. *)
Theorem main_output_appended fuel d s :
  main W C fuel d = Some (Next s) ->
  exists new,
    rows_on_disk (disk s) = rows_on_disk d ++ new
    /\ (forall r, r ∈ new ->
          url r ∈ fetch_log s /\ looks_like_article (url r) = true
          /\ exists html, fetch W (url r) = Some html /\ py.truthy html = true
                          /\ parse_article W html (url r) = Some r)
    /\ NoDup (map row_key new)
    /\ articles s = load_existing d ∪ list_to_set (map row_key new)
    /\ (forall u html row,
          u ∈ fetch_log s -> fetch W u = Some html -> py.truthy html = true ->
          extract_links W html u <> None ->
          looks_like_article u = true -> parse_article W html u = Some row ->
          py.rstrip_slash u ∈ load_existing d
          \/ exists r, r ∈ new /\ row_key r = py.rstrip_slash u).
Proof.
  unfold main. destruct (urlparse_netloc W (START_URL C)) as [bn|]; [|done].
  destruct (loop W C bn fuel (init C d)) as [[s1|s1]|] eqn:Hl; [|done|done].
  intros [= <-]. rewrite final_flush_disk.
  apply loop_reaches in Hl. simpl in Hl.
  destruct (collected_rows bn (init C d) s1 Hl) as (new & Ho & Hr & Hnd & Harts).
  exists new. unfold output in Ho at 2. simpl in Ho. rewrite app_nil_r in Ho.
  assert (Hsame : fetch_log (final_flush s1) = fetch_log s1
                  /\ articles (final_flush s1) = articles s1).
  { unfold final_flush. by destruct (scraped_rows s1). }
  destruct Hsame as [-> ->].
  split; [done|]. split; [|split; [done|split; [done|]]].
  - intros r Hin. by destruct (Hr r Hin) as (Hf & Hlike & _ & _ & Hhtml).
  - intros u html row Hin Hf Hh Hlinks Hlike Hp.
    assert (Hart : py.rstrip_slash u ∈ articles s1).
    { eapply (fetched_articles_kept bn _ _ Hl); try done.
      by intros ?%elem_of_nil. }
    rewrite Harts in Hart. simpl in Hart.
    apply elem_of_union in Hart as [Hart|Hart]; [by left|].
    right. apply elem_of_list_to_set, list_elem_of_fmap in Hart as (r & Hk & Hin').
    by exists r.
Qed.

End CrawlCounters.

Lemma pages_visited_counts_fetches_witness :
  scraper_crawl.pages_visited
    (scraper_crawl.steps examples.home_web examples.default_config
       "www.worldhistory.org" 2
       (scraper_crawl.init examples.default_config None)) = 2%nat.
Proof.
  destruct (pages_visited_counts_fetches examples.home_web examples.default_config
              "www.worldhistory.org" None
              (scraper_crawl.steps examples.home_web examples.default_config
                 "www.worldhistory.org" 2
                 (scraper_crawl.init examples.default_config None)))
    as [H _].
  - apply reaches_steps. vm_compute. reflexivity.
  - rewrite H. vm_compute. reflexivity.
Defined.

Lemma batch_below_ten_witness :
  scraper_crawl.scraped_rows
    (scraper_crawl.state_of
       (scraper_crawl.body examples.chain_web examples.article_config
          "www.worldhistory.org"
          (scraper_crawl.steps examples.chain_web examples.article_config
             "www.worldhistory.org" 9
             (scraper_crawl.init examples.article_config None)))) = []
  /\ exists row,
       scraper_crawl.rows_on_disk
         (scraper_crawl.disk
            (scraper_crawl.state_of
               (scraper_crawl.body examples.chain_web examples.article_config
                  "www.worldhistory.org"
                  (scraper_crawl.steps examples.chain_web examples.article_config
                     "www.worldhistory.org" 9
                     (scraper_crawl.init examples.article_config None)))))
       = scraper_crawl.scraped_rows
           (scraper_crawl.steps examples.chain_web examples.article_config
              "www.worldhistory.org" 9
              (scraper_crawl.init examples.article_config None)) ++ [row].
Proof.
  destruct (batch_below_ten examples.chain_web examples.article_config
              "www.worldhistory.org" None
              (scraper_crawl.steps examples.chain_web examples.article_config
                 "www.worldhistory.org" 9
                 (scraper_crawl.init examples.article_config None)))
    as [Hlt H].
  - reflexivity.
  - apply reaches_steps. vm_compute. reflexivity.
  - destruct H as [[Hd Hl]|(row & H9 & Hrows & _ & Hdisk)];
      [vm_compute; reflexivity| |].
    + exfalso. vm_compute in Hd. discriminate.
    + split; [exact Hrows|]. exists row. rewrite Hdisk.
      assert (E : scraper_crawl.rows_on_disk
                    (scraper_crawl.disk
                       (scraper_crawl.steps examples.chain_web
                          examples.article_config "www.worldhistory.org" 9
                          (scraper_crawl.init examples.article_config None)))
                  = []) by (vm_compute; reflexivity).
      rewrite E. reflexivity.
Defined.

Lemma main_output_appended_witness :
  exists s new,
    scraper_crawl.main examples.titled_web examples.article_config 3 None
    = Some (scraper_crawl.Next s)
    /\ scraper_crawl.rows_on_disk (scraper_crawl.disk s) = new
    /\ scraper_crawl.articles s
       = list_to_set (map scraper_crawl.row_key new)
    /\ exists r, r ∈ new /\ scraper_crawl.row_key r = examples.article_url.
Proof.
  exists (scraper_crawl.final_flush
            (scraper_crawl.steps examples.titled_web examples.article_config
               "www.worldhistory.org" 1
               (scraper_crawl.init examples.article_config None))).
  destruct (main_output_appended examples.titled_web examples.article_config 3 None
              (scraper_crawl.final_flush
                 (scraper_crawl.steps examples.titled_web examples.article_config
                    "www.worldhistory.org" 1
                    (scraper_crawl.init examples.article_config None))))
    as (new & Hdisk & _ & _ & Harts & Hall).
  - vm_compute. reflexivity.
  - exists new. split; [vm_compute; reflexivity|].
    split; [exact Hdisk|]. split.
    + rewrite Harts. simpl. by rewrite (left_id_L ∅ (∪)).
    + destruct (Hall examples.article_url "<h1>Rome</h1>"
                  {| scraper_crawl.title := "Rome";
                     scraper_crawl.url := examples.article_url;
                     scraper_crawl.date := ""; scraper_crawl.author := "";
                     scraper_crawl.category := "History";
                     scraper_crawl.excerpt := "";
                     scraper_crawl.content_length := 4;
                     scraper_crawl.tags := ""; scraper_crawl.notes := "" |})
        as [Hold|Hnew].
      * apply (bool_decide_unpack _). vm_compute. exact I.
      * reflexivity.
      * reflexivity.
      * discriminate.
      * reflexivity.
      * reflexivity.
      * simpl in Hold. by apply elem_of_empty in Hold.
      * exact Hnew.
Defined.

Section CrawlEdges.
Import scraper_crawl.
Context (W : Web) (C : Config).

(** X6. When the article set seeded from the prior output already holds
    [MAX_RECORDS] URLs, or [MAX_PAGES_TO_VISIT] is not positive, [main]
    fetches nothing, queues nothing and leaves the output file as it was. *)
Theorem main_nothing_to_do base_netloc fuel d :
  urlparse_netloc W (START_URL C) = Some base_netloc ->
  (MAX_RECORDS C <= Z.of_nat (size (load_existing d)))%Z
  \/ (MAX_PAGES_TO_VISIT C <= 0)%Z ->
  main W C fuel d = Some (Next (init C d)).
Proof.
  intros Hn Hlim. unfold main. rewrite Hn.
  assert (Hc : loop_cond C (init C d) = false).
  { unfold loop_cond, init. cbn [q articles pages_visited].
    destruct Hlim as [H|H].
    - assert (E : (Z.of_nat (size (load_existing d)) <? MAX_RECORDS C)%Z = false)
        by (apply Z.ltb_ge; lia).
      by rewrite E.
    - assert (E : (Z.of_nat 0 <? MAX_PAGES_TO_VISIT C)%Z = false)
        by (apply Z.ltb_ge; lia).
      rewrite E. by rewrite andb_false_r. }
  destruct fuel; simpl; by rewrite Hc.
Qed.

(** When [time.sleep] raises, an iteration never reaches the periodic
    save, and one that ends normally collected nothing. *)
Lemma body_without_sleep base_netloc s :
  sleep_returns W C = false ->
  disk (state_of (body W C base_netloc s)) = disk s
  /\ forall s', body W C base_netloc s = Next s' ->
       scraped_rows s' = scraped_rows s.
Proof.
  intros Hsleep. unfold body.
  destruct (q s) as [|u rest]; [by split|].
  destruct (bool_decide (u ∈ visited s)); [split; [done|by intros s' [= <-]]|].
  destruct (fetch W u) as [html|]; [|split; [done|by intros s' [= <-]]].
  destruct (negb (py.truthy html)); [split; [done|by intros s' [= <-]]|].
  destruct (extract_links W html u) as [links|]; [|by split].
  destruct (collect W html u (scraped_rows s) (articles s)) as [rows arts].
  rewrite Hsleep. by split.
Qed.

(** X21. With a delay for which [time.sleep] raises (a negative one, or
    one that is not finite), a run never writes to the output file: the
    first page fetched with content ends the run on the exception, before
    the periodic save and without the final flush, and a run that ends
    normally has collected nothing. *)
Theorem sleep_failure_writes_nothing fuel d o :
  sleep_returns W C = false ->
  main W C fuel d = Some o ->
  disk (state_of o) = d
  /\ forall s, o = Next s -> scraped_rows s = [].
Proof.
  intros Hsleep. unfold main.
  destruct (urlparse_netloc W (START_URL C)) as [bn|];
    [|by intros [= <-]].
  assert (Hloop : forall fuel s o',
            loop W C bn fuel s = Some o' ->
            disk (state_of o') = disk s
            /\ forall s', o' = Next s' -> scraped_rows s' = scraped_rows s).
  { clear fuel. induction fuel as [|n IH]; intros s o'; simpl.
    - destruct (loop_cond C s); [done|]. intros [= <-].
      split; [done|]. by intros s' [= <-].
    - destruct (loop_cond C s); [|intros [= <-]; split; [done|by intros s' [= <-]]].
      destruct (body_without_sleep bn s Hsleep) as [Hd Hrows].
      destruct (body W C bn s) as [s1|s1] eqn:Hb.
      + intros Hl. destruct (IH _ _ Hl) as [Hd' Hrows'].
        split; [by rewrite Hd'|].
        intros s' Ho. by rewrite (Hrows' s' Ho), (Hrows s1 eq_refl).
      + intros [= <-]. split; [done|]. by intros s'. }
  destruct (loop W C bn fuel (init C d)) as [[s1|s1]|] eqn:Hl; [| |done].
  - destruct (Hloop _ _ _ Hl) as [Hd Hrows].
    specialize (Hrows s1 eq_refl). simpl in Hd, Hrows.
    intros [= <-]. unfold final_flush. rewrite Hrows. simpl.
    split; [done|]. by intros s [= <-].
  - destruct (Hloop _ _ _ Hl) as [Hd _]. intros [= <-].
    split; [done|]. by intros s.
Qed.

End CrawlEdges.

Lemma main_nothing_to_do_witness :
  scraper_crawl.main examples.home_web examples.resumed_config 5
    (Some examples.prior_csv)
  = Some (scraper_crawl.Next
            (scraper_crawl.init examples.resumed_config (Some examples.prior_csv))).
Proof.
  apply (main_nothing_to_do examples.home_web examples.resumed_config
           "www.worldhistory.org").
  - reflexivity.
  - left. vm_compute. discriminate.
Defined.

Lemma sleep_failure_writes_nothing_witness :
  exists s row,
    scraper_crawl.main examples.titled_web examples.negative_delay 3 None
    = Some (scraper_crawl.Raised s)
    /\ scraper_crawl.scraped_rows s = [row]
    /\ scraper_crawl.disk s = None.
Proof.
  eexists _, _. split; [vm_compute; reflexivity|]. split; [reflexivity|].
  destruct (sleep_failure_writes_nothing examples.titled_web
              examples.negative_delay 3 None _ eq_refl eq_refl) as [H _].
  exact H.
Defined.

(** * Further properties of the ingestion and reconciliation runs *)

Section IngestMore.
Import mongo store_to_db.
Context (J : Json).

(** However [upsert_to_mongo] ends, it applied the operations of a prefix
    of the rows, in order, with one call per row tried; it ends without an
    exception only when that prefix is all the rows. *)
Lemma upsert_to_mongo_prefix (rows : list Doc) (s : Server) :
  exists k,
    (k <= length rows)%nat
    /\ docs (upsert_to_mongo rows s).2
       = fold_left apply_op (map upsert_op (take k rows)) (docs s)
    /\ ((upsert_to_mongo rows s).1 = true -> k = length rows)
    /\ ((upsert_to_mongo rows s).1 = false ->
        calls (upsert_to_mongo rows s).2 = S (calls s + k)).
Proof.
  revert s. induction rows as [|r t IH]; intros s; simpl.
  { exists 0%nat. by repeat split. }
  unfold update_one, bulk_write.
  destruct (round_trip s) as [[] s1] eqn:Hrt.
  - pose proof (round_trip_docs s) as Hd. pose proof (round_trip_calls s) as Hc.
    rewrite Hrt in Hd, Hc. simpl in Hd, Hc.
    match goal with
    | |- context [upsert_to_mongo t ?x] => destruct (IH x) as (k & Hk & Hdocs & Hok & Hfail)
    end.
    exists (S k). simpl in *. rewrite Hd in Hdocs, Hok, Hfail |- *.
    rewrite Hdocs.
    split; [lia|]. split; [done|]. split.
    + intros H. f_equal. by apply Hok.
    + intros H. rewrite (Hfail H), Hc. lia.
  - exists 0%nat. pose proof (round_trip_docs s) as Hd.
    pose proof (round_trip_calls s) as Hc.
    rewrite Hrt in Hd, Hc. simpl in *.
    split; [lia|]. split; [done|]. split; [done|]. intros _. rewrite Hc. lia.
Qed.

(** X8. An ingestion run never loses a row. It ends Stored only after the
    upsert of every row was applied, in order, with one ping and one call
    per row, and then leaves the fallback file alone; when it ends Degraded
    the server holds the upserts of some prefix of the rows and the file
    holds every row, also those already sent. *)
Theorem ingest_never_loses_rows (uri : string) (rows : list Doc) (w : World) :
  rows <> [] ->
  ((main J (Some uri) rows w).2 = Stored
   /\ docs (server (main J (Some uri) rows w).1)
      = fold_left apply_op (map upsert_op rows) (docs (server w))
   /\ calls (server (main J (Some uri) rows w).1)
      = S (calls (server w) + length rows)
   /\ FALLBACK (main J (Some uri) rows w).1 = FALLBACK w)
  \/ ((main J (Some uri) rows w).2 = Degraded
      /\ FALLBACK (main J (Some uri) rows w).1
         = Some (py.write_lines (map (dumps J) rows))
      /\ exists k, (k <= length rows)%nat
           /\ docs (server (main J (Some uri) rows w).1)
              = fold_left apply_op (map upsert_op (take k rows)) (docs (server w))).
Proof.
  intros Hrows. unfold main. destruct rows as [|r t] eqn:Erows; [done|].
  rewrite <- Erows. clear Hrows.
  unfold ping. destruct (round_trip (server w)) as [[] s1] eqn:Hrt.
  - pose proof (round_trip_docs (server w)) as Hd.
    pose proof (round_trip_calls (server w)) as Hc.
    rewrite Hrt in Hd, Hc. simpl in Hd, Hc.
    destruct (upsert_to_mongo rows s1) as [[] s2] eqn:Hup.
    + left. apply upsert_to_mongo_ok in Hup as (Hcalls & Hdocs & _). simpl.
      rewrite Hdocs, Hcalls, Hd, Hc. by repeat split.
    + right. simpl. split; [done|]. split; [done|].
      destruct (upsert_to_mongo_prefix rows s1) as (k & Hk & Hdocs & _).
      rewrite Hup in Hdocs. simpl in Hdocs. exists k. by rewrite Hdocs, Hd.
  - right. simpl. split; [done|]. split; [done|]. exists 0%nat.
    pose proof (round_trip_docs (server w)) as Hd. rewrite Hrt in Hd.
    split; [lia|done].
Qed.

End IngestMore.

Lemma ingest_never_loses_rows_witness :
  store_to_db.FALLBACK
    (store_to_db.main flat_json.codec
       (Some "mongodb+srv://cluster0.example.mongodb.net")
       [examples.rec_rome] examples.earlier_log).1
  = Some (py.write_lines [flat_json.dumps examples.rec_rome]).
Proof.
  destruct (ingest_never_loses_rows flat_json.codec
              "mongodb+srv://cluster0.example.mongodb.net"
              [examples.rec_rome] examples.earlier_log) as [(H & _)|(_ & H & _)].
  - discriminate.
  - vm_compute in H. discriminate.
  - exact H.
Defined.

Section ReconcileMore.
Import mongo import_fallback.
Context (J : Json) (C : Config).

Lemma filter_none {A} (p : A -> bool) (l : list A) :
  (forall x, x ∈ l -> p x = false) -> List.filter p l = [].
Proof.
  induction l as [|x t IH]; intros H; simpl; [done|].
  rewrite (H x (list_elem_of_here _ _)). apply IH.
  intros y Hy. by apply H, list_elem_of_further.
Qed.




(** An attempt never removes a document. *)
Lemma apply_op_length (coll : list Doc) (op : UpdateOne) :
  (length coll <= length (apply_op coll op) <= S (length coll))%nat.
Proof.
  unfold apply_op. destruct (update_first op coll) as [coll'|] eqn:Hu.
  - assert (length coll' = length coll); [|lia].
    revert coll' Hu. induction coll as [|d t0 IH]; intros coll'; simpl; [done|].
    destruct (matches (op_filter op) d); [by intros [= <-]|].
    destruct (update_first op t0) as [t'|]; [|done]. intros [= <-]. simpl.
    by rewrite (IH t' eq_refl).
  - destruct (op_upsert op); [|lia]. rewrite length_app. simpl. lia.
Qed.

Lemma fold_apply_op_length (ops : list UpdateOne) (coll : list Doc) :
  (length coll <= length (fold_left apply_op ops coll))%nat.
Proof.
  revert coll. induction ops as [|op t0 IH]; intros coll; simpl; [done|].
  pose proof (apply_op_length coll op). pose proof (IH (apply_op coll op)). lia.
Qed.

Lemma write_batches_length (bs : list (list Parsed)) (s : Server) :
  (length (docs s) <= length (docs (write_batches bs s).2))%nat.
Proof.
  revert s. induction bs as [|b t0 IH]; intros s; simpl; [done|].
  destruct (batch_ops b) as [[|op ops]|]; [apply IH| |done].
  unfold bulk_write. destruct (round_trip s) as [[] s1] eqn:Hrt.
  - pose proof (round_trip_docs s) as Hd. rewrite Hrt in Hd. simpl in Hd.
    match goal with
    | |- context [write_batches t0 ?x] => pose proof (IH x) as Hle
    end.
    simpl in Hle.
    pose proof (fold_apply_op_length ops (apply_op (docs s1) op)).
    pose proof (apply_op_length (docs s1) op). simpl. rewrite <- Hd.
    eapply Nat.le_trans; [|exact Hle]. lia.
  - pose proof (round_trip_docs s) as Hd. rewrite Hrt in Hd. simpl in Hd |- *.
    by rewrite Hd.
Qed.

Lemma attempt_length (records : list Parsed) (s : Server) :
  (length (docs s) <= length (docs (attempt C records s).2))%nat.
Proof.
  unfold attempt, ping, try_import, create_index.
  destruct (round_trip s) as [[] s1] eqn:H1.
  - pose proof (round_trip_docs s) as Hd1. rewrite H1 in Hd1. simpl in Hd1.
    destruct (round_trip s1) as [[] s2] eqn:H2.
    + pose proof (round_trip_docs s1) as Hd2. rewrite H2 in Hd2. simpl in Hd2.
      destruct (batches (BATCH_SIZE C) records) as [bs|]; simpl;
        [|by rewrite Hd2, Hd1].
      pose proof (write_batches_length bs s2) as Hw. rewrite <- Hd1, <- Hd2.
      exact Hw.
    + pose proof (round_trip_docs s1) as Hd2. rewrite H2 in Hd2.
      simpl in Hd2 |- *. by rewrite Hd2, Hd1.
  - pose proof (round_trip_docs s) as Hd1. rewrite H1 in Hd1.
    simpl in Hd1 |- *. by rewrite Hd1.
Qed.

(** X11. A reconciliation run never deletes a document and never loses
    the log: each collection has at least as many documents after the run
    as before, and the lines of the log are afterwards still pending or,
    when the run reports an import, under the imported name. *)
Theorem run_keeps_documents_and_log (w : World) :
  (length (docs (primary w)) <= length (docs (primary (main J C w).1)))%nat
  /\ (length (docs (local w)) <= length (docs (local (main J C w).1)))%nat
  /\ ((FALLBACK_PATH (main J C w).1 = FALLBACK_PATH w
       /\ imported_path (main J C w).1 = imported_path w
       /\ forall t, outcome (main J C w).2 <> ImportedTo t)
      \/ (FALLBACK_PATH (main J C w).1 = None
          /\ imported_path (main J C w).1 = FALLBACK_PATH w
          /\ exists t, outcome (main J C w).2 = ImportedTo t)).
Proof.
  unfold main, try_local.
  destruct (load_fallback J w) as [[|r t]|]; simpl;
    [split; [lia|split; [lia|by left]]| |split; [lia|split; [lia|by left]]].
  pose proof (attempt_length (r :: t) (primary w)) as Hp.
  pose proof (attempt_length (r :: t) (local w)) as Hl.
  destruct (py.truthy (MONGO_URI C)).
  - destruct (attempt C (r :: t) (primary w)) as [[] p']; simpl in *.
    + split; [done|]. split; [lia|]. right. by eauto.
    + destruct (attempt C (r :: t) (local w)) as [[] l']; simpl in *.
      * split; [done|]. split; [done|]. right. by eauto.
      * split; [done|]. split; [done|]. by left.
  - destruct (attempt C (r :: t) (local w)) as [[] l']; simpl in *.
    + split; [lia|]. split; [done|]. right. by eauto.
    + split; [lia|]. split; [done|]. by left.
Qed.

(** X9. What a Degraded ingestion run writes, a reconciliation run reads
    back: when [json.loads] inverts [json.dumps] on the rows, and no dumped
    row is blank or holds a line boundary of [splitlines()] (as a raw U+2028
    would be), [load_fallback] over the file that [store_to_db] left returns
    exactly the rows, in order. *)
Theorem degraded_log_read_back (uri : string) (rows : list Doc)
    (v : store_to_db.World) (w : World) :
  (forall r, r ∈ rows ->
     loads J (dumps J r) = Some (JObject r)
     /\ py.truthy (py.strip (dumps J r)) = true
     /\ py.no_break (dumps J r) = true) ->
  (store_to_db.main J (Some uri) rows v).2 = store_to_db.Degraded ->
  FALLBACK_PATH w = store_to_db.FALLBACK (store_to_db.main J (Some uri) rows v).1 ->
  load_fallback J w = Some (map JObject rows).
Proof.
  intros Hcodec Hdeg Hfile.
  unfold load_fallback, lines_of.
  rewrite Hfile, (degraded_fallback J (Some uri) rows v Hdeg).
  rewrite splitlines_write_lines.
  2:{ apply Forall_forall. intros line Hin.
      apply list_elem_of_fmap in Hin as (r & -> & Hr). by apply Hcodec. }
  assert (Hfilter : List.filter (fun line => py.truthy (py.strip line))
                      (map (dumps J) rows) = map (dumps J) rows).
  { clear Hdeg Hfile. induction rows as [|r t IH]; [done|]. simpl.
    destruct (Hcodec r (list_elem_of_here _ _)) as (_ & -> & _).
    f_equal. apply IH. intros r' Hr'. by apply Hcodec, list_elem_of_further. }
  rewrite Hfilter. apply mapM_Some.
  clear Hdeg Hfile Hfilter. induction rows as [|r t IH]; [constructor|].
  simpl. constructor.
  - by apply Hcodec, list_elem_of_here.
  - apply IH. intros r' Hr'. by apply Hcodec, list_elem_of_further.
Qed.

(** X13. A log that is missing, or all of whose lines [strip()] empties,
    is nothing to import: the run reads no record, tries no tier and changes
    nothing. *)
Theorem blank_log_nothing_to_import (w : World) :
  (FALLBACK_PATH w = None
   \/ exists text, FALLBACK_PATH w = Some text
        /\ forall l, l ∈ py.splitlines text -> py.truthy (py.strip l) = false) ->
  main J C w = (w, {| outcome := NothingToImport; attempts := [] |}).
Proof.
  intros [H|(text & H & Hblank)]; unfold main, load_fallback, lines_of;
    rewrite H; [done|].
  by rewrite (filter_none _ _ Hblank).
Qed.

End ReconcileMore.

Lemma degraded_log_read_back_witness :
  import_fallback.load_fallback flat_json.codec
    (examples.pending [examples.rec_rome; examples.rec_athens]
       examples.reliable examples.reliable)
  = Some [mongo.JObject examples.rec_rome; mongo.JObject examples.rec_athens].
Proof.
  apply (degraded_log_read_back flat_json.codec
           "mongodb+srv://cluster0.example.mongodb.net"
           [examples.rec_rome; examples.rec_athens] examples.earlier_log).
  - intros r [->|Hr]%elem_of_cons;
      [|apply list_elem_of_singleton in Hr as ->];
      repeat split; vm_compute; reflexivity.
  - vm_compute. reflexivity.
  - vm_compute. reflexivity.
Defined.


Lemma blank_log_nothing_to_import_witness :
  py.splitlines examples.blank_text = [""; "   "; examples.nbsp]
  /\ import_fallback.main flat_json.codec examples.import_config
       {| import_fallback.FALLBACK_PATH := Some examples.blank_text;
          import_fallback.imported_path := None;
          import_fallback.primary := examples.reliable;
          import_fallback.local := examples.reliable |}
     = ({| import_fallback.FALLBACK_PATH := Some examples.blank_text;
           import_fallback.imported_path := None;
           import_fallback.primary := examples.reliable;
           import_fallback.local := examples.reliable |},
        {| import_fallback.outcome := import_fallback.NothingToImport;
           import_fallback.attempts := [] |}).
Proof.
  split; [vm_compute; reflexivity|].
  apply blank_log_nothing_to_import. right. exists examples.blank_text.
  split; [reflexivity|].
  assert (E : py.splitlines examples.blank_text = [""; "   "; examples.nbsp])
    by (vm_compute; reflexivity).
  rewrite E.
  intros l [->|Hl]%elem_of_cons; [reflexivity|].
  apply elem_of_cons in Hl as [->|Hl]; [reflexivity|].
  apply list_elem_of_singleton in Hl as ->. reflexivity.
Defined.

Section BatchMore.
Import mongo import_fallback.
Context (J : Json) (C : Config).

(** With a zero batch size [range] raises: an attempt fails after the
    ping and the index call, whatever the server does, and writes nothing. *)
Lemma attempt_zero_batch (records : list Parsed) (s : Server) :
  BATCH_SIZE C = 0%Z ->
  (attempt C records s).1 = false /\ docs (attempt C records s).2 = docs s.
Proof.
  intros HB. unfold attempt, ping, try_import, create_index, batches.
  rewrite HB. change (0 =? 0)%Z with true. cbn iota.
  destruct (round_trip s) as [[] s1] eqn:H1.
  - pose proof (round_trip_docs s) as Hd1. rewrite H1 in Hd1. simpl in Hd1.
    pose proof (round_trip_docs s1) as Hd2.
    destruct (round_trip s1) as [[] s2] eqn:H2; simpl in Hd2 |- *;
      (split; [done|congruence]).
  - pose proof (round_trip_docs s) as Hd1. rewrite H1 in Hd1. by simpl in *.
Qed.

(** X14. With [BATCH_SIZE] zero no run imports anything: it never reports
    an import, keeps the log pending, and leaves both collections as they
    were. *)
Theorem zero_batch_never_imports (w : World) :
  BATCH_SIZE C = 0%Z ->
  (forall t, outcome (main J C w).2 <> ImportedTo t)
  /\ FALLBACK_PATH (main J C w).1 = FALLBACK_PATH w
  /\ docs (primary (main J C w).1) = docs (primary w)
  /\ docs (local (main J C w).1) = docs (local w).
Proof.
  intros HB. unfold main, try_local.
  destruct (load_fallback J w) as [[|r t]|]; simpl; [done| |done].
  destruct (attempt_zero_batch (r :: t) (primary w) HB) as [Hp1 Hp2].
  destruct (attempt_zero_batch (r :: t) (local w) HB) as [Hl1 Hl2].
  destruct (py.truthy (MONGO_URI C)).
  - destruct (attempt C (r :: t) (primary w)) as [okp p']. simpl in Hp1, Hp2.
    subst okp.
    destruct (attempt C (r :: t) (local w)) as [okl l']. simpl in Hl1, Hl2.
    subst okl. simpl. by repeat split.
  - destruct (attempt C (r :: t) (local w)) as [okl l']. simpl in Hl1, Hl2.
    subst okl. simpl. by repeat split.
Qed.

Lemma write_batches_calls (bs : list (list Parsed)) (s s' : Server) :
  Forall (fun batch => (0 < length batch)%nat) bs ->
  write_batches bs s = (true, s') -> calls s' = (calls s + length bs)%nat.
Proof.
  revert s. induction bs as [|b t IH]; intros s Hne; simpl.
  { intros [= <-]. lia. }
  apply Forall_cons in Hne as [Hb Ht].
  destruct (batch_ops b) as [ops|] eqn:Hops; [|done].
  apply batch_ops_length in Hops.
  destruct ops as [|op ops]; [simpl in Hops; lia|].
  unfold bulk_write. destruct (round_trip s) as [[] s1] eqn:Hrt; [|done].
  pose proof (round_trip_calls s) as Hc. rewrite Hrt in Hc. simpl in Hc.
  intros H. apply (IH _ Ht) in H. simpl in H. lia.
Qed.

(** X15. A successful attempt on a tier, for a positive batch size, makes
    one ping, one index call and one [bulk_write] per batch: two round trips
    plus the number of records divided by [BATCH_SIZE], rounded up. *)
Theorem attempt_round_trips (records : list Parsed) (s s' : Server) :
  (0 < BATCH_SIZE C)%Z ->
  attempt C records s = (true, s') ->
  calls s'
  = (calls s + 2
     + (length records + Z.to_nat (BATCH_SIZE C) - 1) / Z.to_nat (BATCH_SIZE C))%nat.
Proof.
  intros HB. unfold attempt, ping, try_import, create_index.
  destruct (round_trip s) as [[] s1] eqn:H1; [|done].
  destruct (round_trip s1) as [[] s2] eqn:H2; [|done].
  pose proof (round_trip_calls s) as Hc1. rewrite H1 in Hc1. simpl in Hc1.
  pose proof (round_trip_calls s1) as Hc2. rewrite H2 in Hc2. simpl in Hc2.
  destruct (batches_spec (BATCH_SIZE C) records HB) as (bs & Hbs & _ & Hall & Hlen).
  rewrite Hbs. intros Hw.
  apply write_batches_calls in Hw.
  2:{ eapply Forall_impl; [exact Hall|]. simpl. intros; lia. }
  rewrite Hw, Hc2, Hc1, Hlen. lia.
Qed.

Lemma startswith_app (p s : string) :
  py.startswith p s = true -> exists rest, s = p +:+ rest.
Proof.
  revert s. induction p as [|a p IH]; intros s; simpl.
  - intros _. by exists s.
  - destruct s as [|b s]; [done|].
    intros [Hab Hs]%andb_prop. apply Ascii.eqb_eq in Hab as ->.
    destruct (IH s Hs) as (rest & ->). by exists rest.
Qed.

(** X17. [client_for_uri] gives no client for an empty URI, a TLS client
    for every [mongodb+srv] URI, and a plain client for every URI that
    starts with [mongodb://localhost], also when it mentions
    [mongodb.net]. *)
Theorem client_for_uri_cases (uri : string) :
  client_for_uri "" = None
  /\ (py.startswith "mongodb+srv" uri = true ->
      client_for_uri uri = Some (TlsClient uri))
  /\ (py.startswith "mongodb://localhost" uri = true ->
      client_for_uri uri = Some (PlainClient uri)).
Proof.
  split; [done|]. split.
  - intros H. unfold client_for_uri. rewrite H.
    by destruct (startswith_app _ _ H) as (rest & ->).
  - intros H. unfold client_for_uri. rewrite H.
    destruct (startswith_app _ _ H) as (rest & ->).
    assert (Hsrv : py.startswith "mongodb+srv" ("mongodb://localhost" +:+ rest)
                   = false) by reflexivity.
    rewrite Hsrv. cbn [negb orb]. by rewrite andb_false_r.
Qed.

End BatchMore.

Lemma zero_batch_never_imports_witness :
  import_fallback.FALLBACK_PATH
    (import_fallback.main flat_json.codec
       {| import_fallback.MONGO_URI := "";
          import_fallback.BATCH_SIZE := 0 |}
       (examples.pending [examples.rec_rome] examples.reliable examples.reliable)).1
  = Some (py.write_lines [flat_json.dumps examples.rec_rome]).
Proof.
  destruct (zero_batch_never_imports flat_json.codec
              {| import_fallback.MONGO_URI := "";
                 import_fallback.BATCH_SIZE := 0 |}
              (examples.pending [examples.rec_rome] examples.reliable examples.reliable)
              eq_refl) as (_ & H & _).
  exact H.
Defined.

Lemma attempt_round_trips_witness :
  mongo.calls
    (import_fallback.attempt
       {| import_fallback.MONGO_URI := ""; import_fallback.BATCH_SIZE := 2 |}
       (map mongo.JObject
          [examples.rec_rome; examples.rec_athens; examples.rec_no_url])
       examples.reliable).2 = 4%nat.
Proof.
  apply (attempt_round_trips
           {| import_fallback.MONGO_URI := ""; import_fallback.BATCH_SIZE := 2 |}
           (map mongo.JObject
              [examples.rec_rome; examples.rec_athens; examples.rec_no_url])
           examples.reliable).
  - reflexivity.
  - vm_compute. reflexivity.
Defined.

(** ** Re-sending a whole log *)

Section Replay.
Import mongo.

(** The operation of a record under its [url]: what [upsert_to_mongo]
    builds for any row, and [try_import] for a row with a non-empty URL. *)
Lemma import_op_url (r : Doc) :
  truthy (get r "url") = true -> import_fallback.import_op r = store_to_db.upsert_op r.
Proof.
  intros H. unfold import_fallback.import_op, store_to_db.upsert_op.
  by rewrite key_url.
Qed.

Lemma matches_other (r1 r2 d : Doc) :
  get r1 "url" <> get r2 "url" ->
  matches ("url", get r1 "url") d = true ->
  matches ("url", get r2 "url") d = false
  /\ matches ("url", get r2 "url") (r1 ∪ d) = false.
Proof.
  intros Hne Hm. pose proof (matches_after_set "url" r1 d Hm) as Hm'.
  apply bool_decide_eq_true in Hm, Hm'. simpl in *.
  split; apply bool_decide_eq_false; simpl; congruence.
Qed.

(** Two operations that never match the same document, before or after
    either update, do not disturb each other once the first has found its
    document. *)
Lemma update_first_independent (o1 o2 : UpdateOne) (X X1 : list Doc) :
  (forall d, matches (op_filter o1) d = true ->
     matches (op_filter o2) d = false
     /\ matches (op_filter o2) (op_set o1 ∪ d) = false) ->
  (forall d, matches (op_filter o2) d = true ->
     matches (op_filter o1) (op_set o2 ∪ d) = false) ->
  update_first o1 X = Some X1 ->
  match update_first o2 X with
  | Some X2 =>
      exists Y, update_first o2 X1 = Some Y /\ update_first o1 X2 = Some Y
  | None =>
      update_first o2 X1 = None
      /\ forall tail, update_first o1 (X ++ tail) = Some (X1 ++ tail)
  end.
Proof.
  intros H12 H21. revert X1.
  induction X as [|d t IH]; intros X1; [done|].
  cbn [update_first app].
  destruct (matches (op_filter o1) d) eqn:M1.
  - intros [= <-]. destruct (H12 d M1) as [M2 M2'].
    rewrite M2. cbn [update_first]. rewrite M2'.
    destruct (update_first o2 t) as [t2|] eqn:Ht2.
    + exists ((op_set o1 ∪ d) :: t2). split; [done|].
      cbn [update_first]. by rewrite M1.
    + split; [done|]. intros tail. done.
  - destruct (update_first o1 t) as [t1|] eqn:Ht1; [|done].
    intros [= <-]. specialize (IH t1 eq_refl).
    cbn [update_first].
    destruct (matches (op_filter o2) d) eqn:M2.
    + exists ((op_set o2 ∪ d) :: t1). split; [done|].
      cbn [update_first]. by rewrite (H21 d M2), Ht1.
    + destruct (update_first o2 t) as [t2|] eqn:Ht2.
      * destruct IH as (Y & HY1 & HY2). exists (d :: Y).
        rewrite HY1. split; [done|]. cbn [update_first]. by rewrite M1, HY2.
      * destruct IH as [HN Htail]. rewrite HN. split; [done|].
        intros tail. by rewrite Htail.
Qed.

Lemma update_first_commute (r1 r2 : Doc) (X X1 : list Doc) :
  get r1 "url" <> get r2 "url" ->
  update_first (store_to_db.upsert_op r1) X = Some X1 ->
  match update_first (store_to_db.upsert_op r2) X with
  | Some X2 =>
      exists Y, update_first (store_to_db.upsert_op r2) X1 = Some Y
                /\ update_first (store_to_db.upsert_op r1) X2 = Some Y
  | None =>
      update_first (store_to_db.upsert_op r2) X1 = None
      /\ forall tail, update_first (store_to_db.upsert_op r1) (X ++ tail)
                      = Some (X1 ++ tail)
  end.
Proof.
  intros Hne. apply update_first_independent.
  - intros d Hm. by apply (matches_other r1 r2 d Hne).
  - intros d Hm. by apply (matches_other r2 r1 d (not_eq_sym Hne)).
Qed.

(** Upserts on different URLs commute once the first URL has a document. *)
Lemma apply_op_commute (r1 r2 : Doc) (X X1 : list Doc) :
  get r1 "url" <> get r2 "url" ->
  update_first (store_to_db.upsert_op r1) X = Some X1 ->
  apply_op (apply_op X (store_to_db.upsert_op r1)) (store_to_db.upsert_op r2)
  = apply_op (apply_op X (store_to_db.upsert_op r2)) (store_to_db.upsert_op r1)
  /\ exists Z, update_first (store_to_db.upsert_op r1)
                 (apply_op X (store_to_db.upsert_op r2)) = Some Z.
Proof.
  intros Hne H1. pose proof (update_first_commute r1 r2 X X1 Hne H1) as Hc.
  assert (E1 : apply_op X (store_to_db.upsert_op r1) = X1)
    by (unfold apply_op; by rewrite H1).
  rewrite E1.
  destruct (update_first (store_to_db.upsert_op r2) X) as [X2|] eqn:H2.
  - destruct Hc as (Y & HY1 & HY2).
    assert (E2 : apply_op X (store_to_db.upsert_op r2) = X2)
      by (unfold apply_op; by rewrite H2).
    rewrite E2. unfold apply_op. rewrite HY1, HY2. eauto.
  - destruct Hc as [HN Htail].
    assert (E2 : apply_op X (store_to_db.upsert_op r2)
                 = X ++ [r2 ∪ {[ "url" := get r2 "url" ]}])
      by (unfold apply_op; by rewrite H2).
    rewrite E2. unfold apply_op. rewrite HN, Htail. eauto.
Qed.

Lemma found_after_own (r : Doc) (X : list Doc) :
  exists Z, update_first (store_to_db.upsert_op r)
              (apply_op X (store_to_db.upsert_op r)) = Some Z.
Proof.
  unfold apply_op.
  destruct (update_first (store_to_db.upsert_op r) X) as [X1|] eqn:H.
  - exists X1. by apply (update_first_fixed "url" r true X X1).
  - eexists. by apply (update_first_inserted "url" r true X).
Qed.

Lemma fold_commute (r : Doc) (t : list Doc) (X X1 : list Doc) :
  (forall r', r' ∈ t -> get r "url" <> get r' "url") ->
  update_first (store_to_db.upsert_op r) X = Some X1 ->
  fold_left apply_op (map store_to_db.upsert_op t)
    (apply_op X (store_to_db.upsert_op r))
  = apply_op (fold_left apply_op (map store_to_db.upsert_op t) X)
      (store_to_db.upsert_op r).
Proof.
  revert X X1. induction t as [|r' t IH]; intros X X1 Hne H1; [done|].
  cbn [map fold_left].
  destruct (apply_op_commute r r' X X1
              (Hne r' (list_elem_of_here _ _)) H1) as [Hc (Z & HZ)].
  rewrite Hc. apply (IH _ Z); [|done].
  intros r'' Hin. by apply Hne, list_elem_of_further.
Qed.

(** Sending all the operations of records with pairwise different URLs a
    second time leaves the collection as the first pass left it. *)
Lemma fold_replay (records : list Doc) (X : list Doc) :
  NoDup (map (fun r => get r "url") records) ->
  fold_left apply_op (map store_to_db.upsert_op records)
    (fold_left apply_op (map store_to_db.upsert_op records) X)
  = fold_left apply_op (map store_to_db.upsert_op records) X.
Proof.
  revert X. induction records as [|r t IH]; intros X Hnd; [done|].
  apply NoDup_cons in Hnd as [Hr Hnd]. cbn [map fold_left].
  assert (Hne : forall r', r' ∈ t -> get r "url" <> get r' "url").
  { intros r' Hin Heq. apply Hr. apply list_elem_of_fmap. by exists r'. }
  destruct (found_after_own r X) as (Z & HZ).
  rewrite <- (fold_commute r t _ Z Hne HZ).
  assert (Hrep : apply_op (apply_op X (store_to_db.upsert_op r))
                   (store_to_db.upsert_op r)
                 = apply_op X (store_to_db.upsert_op r))
    by apply (apply_op_replay "url" r X).
  rewrite Hrep. by apply IH.
Qed.

(** X18. Re-running the ingestion of the same rows is safe: when the rows
    have pairwise different [url] values, a second complete
    [upsert_to_mongo] over the same server leaves the collection exactly as
    the first one left it. *)
Theorem upsert_to_mongo_rerun (rows : list Doc) (s s1 s2 : Server) :
  NoDup (map (fun r => get r "url") rows) ->
  store_to_db.upsert_to_mongo rows s = (true, s1) ->
  store_to_db.upsert_to_mongo rows s1 = (true, s2) ->
  docs s2 = docs s1.
Proof.
  intros Hnd H1 H2.
  apply upsert_to_mongo_ok in H1 as (_ & H1 & _).
  apply upsert_to_mongo_ok in H2 as (_ & H2 & _).
  rewrite H2, H1. by apply fold_replay.
Qed.

(** X19. Re-sending a whole log is safe: for a positive batch size and
    records with non-empty, pairwise different URLs, a second successful
    attempt with the same records on the same tier leaves its collection
    exactly as the first one left it. *)
Theorem attempt_resend (C : import_fallback.Config) (records : list Doc)
    (s s1 s2 : Server) :
  (0 < import_fallback.BATCH_SIZE C)%Z ->
  (forall r, r ∈ records -> truthy (get r "url") = true) ->
  NoDup (map (fun r => get r "url") records) ->
  import_fallback.attempt C (map JObject records) s = (true, s1) ->
  import_fallback.attempt C (map JObject records) s1 = (true, s2) ->
  docs s2 = docs s1.
Proof.
  intros HB Hurl Hnd H1 H2.
  apply (attempt_ok C records _ _ HB) in H1 as [H1 _].
  apply (attempt_ok C records _ _ HB) in H2 as [H2 _].
  assert (Hops : map import_fallback.import_op records
                 = map store_to_db.upsert_op records).
  { apply map_ext_in. intros r Hr. apply import_op_url, Hurl.
    by apply list_elem_of_In. }
  rewrite Hops in H1, H2. rewrite H2, H1. by apply fold_replay.
Qed.

End Replay.

Lemma upsert_to_mongo_rerun_witness :
  mongo.docs
    (store_to_db.upsert_to_mongo [examples.rec_rome; examples.rec_athens]
       (store_to_db.upsert_to_mongo [examples.rec_rome; examples.rec_athens]
          examples.reliable).2).2
  = mongo.docs
      (store_to_db.upsert_to_mongo [examples.rec_rome; examples.rec_athens]
         examples.reliable).2.
Proof.
  apply (upsert_to_mongo_rerun [examples.rec_rome; examples.rec_athens]
           examples.reliable).
  - apply (bool_decide_unpack _). vm_compute. exact I.
  - vm_compute. reflexivity.
  - vm_compute. reflexivity.
Defined.

Lemma attempt_resend_witness :
  mongo.docs
    (import_fallback.attempt examples.import_config
       (map mongo.JObject [examples.rec_rome; examples.rec_athens])
       (import_fallback.attempt examples.import_config
          (map mongo.JObject [examples.rec_rome; examples.rec_athens])
          examples.reliable).2).2
  = mongo.docs
      (import_fallback.attempt examples.import_config
         (map mongo.JObject [examples.rec_rome; examples.rec_athens])
         examples.reliable).2.
Proof.
  apply (attempt_resend examples.import_config
           [examples.rec_rome; examples.rec_athens] examples.reliable).
  - reflexivity.
  - intros r [->|Hr]%elem_of_cons; [reflexivity|].
    apply list_elem_of_singleton in Hr as ->. reflexivity.
  - apply (bool_decide_unpack _). vm_compute. exact I.
  - vm_compute. reflexivity.
  - vm_compute. reflexivity.
Defined.

(** ** The article-path heuristic *)

Section Heuristic.
Import scraper_crawl.

Lemma startswith_shorter (p x s : string) :
  py.startswith (p +:+ x) s = true -> py.startswith p s = true.
Proof.
  revert s. induction p as [|a p IH]; intros s; simpl; [done|].
  destruct s as [|b s]; [done|].
  intros [Hab Hs]%andb_prop. rewrite Hab. simpl. by apply IH.
Qed.

Lemma contains_shorter (p x s : string) :
  py.contains (p +:+ x) s = true -> py.contains p s = true.
Proof.
  induction s as [|b s IH]; simpl.
  - rewrite !orb_false_r. apply startswith_shorter.
  - intros [H|H]%orb_prop.
    + by rewrite (startswith_shorter p x _ H).
    + rewrite (IH H). by rewrite orb_true_r.
Qed.

Lemma lower_char_idem (c : ascii) : py.lower_char (py.lower_char c) = py.lower_char c.
Proof. destruct c as [[] [] [] [] [] [] [] []]; reflexivity. Qed.

Lemma lower_idem (s : string) : py.lower (py.lower s) = py.lower s.
Proof.
  induction s as [|c s IH]; simpl; [done|]. by rewrite lower_char_idem, IH.
Qed.

(** X20. The article-path test is exactly "the lower-cased URL contains
    [/article]": the patterns [/articles] and [/article-] never decide, and
    the test does not depend on the case of the URL's letters. *)
Theorem looks_like_article_simple (u : string) :
  looks_like_article u = py.contains "/article" (py.lower u)
  /\ looks_like_article (py.lower u) = looks_like_article u.
Proof.
  assert (H : forall v, looks_like_article v = py.contains "/article" (py.lower v)).
  { intros v. unfold looks_like_article.
    destruct (py.contains "/article" (py.lower v)) eqn:E; [done|]. simpl.
    destruct (py.contains "/articles" (py.lower v)) eqn:E1.
    { apply (contains_shorter "/article" "s") in E1. congruence. }
    destruct (py.contains "/article-" (py.lower v)) eqn:E2; [|done].
    apply (contains_shorter "/article" "-") in E2. congruence. }
  split; [apply H|]. by rewrite !H, lower_idem.
Qed.

End Heuristic.

Lemma extract_links_clean_witness :
  "https://www.worldhistory.org" <> ""
  /\ py.ends_with_slash "https://www.worldhistory.org" = false.
Proof.
  destruct (extract_links_clean examples.home_web "<a href='/'>Home</a>"
              "https://www.worldhistory.org/" ["https://www.worldhistory.org"])
    as [_ H].
  - vm_compute. reflexivity.
  - apply H. apply list_elem_of_here.
Defined.
